(** * expo-image-cache: the caching core, embedded and verified

    The development follows the TypeScript sources:
    - [src/webCache.ts]: class [WebImageCache] (browser backend on IndexedDB);
    - the [CachedImage] component ([loadImageAsync], [loadImageWeb],
      [loadImageNative] and their helpers, the mount effect and its cleanup);
    - [src/hooks/useIntersectionObserver.ts].

    Promises are modelled by a state-and-exception monad: a computation takes
    the current state and yields either a fulfilled value or a rejection,
    together with the new state.  Everything the browser, the network and the
    file system decide on their own (whether [indexedDB.open] succeeds, what a
    [fetch] answers, ...) is read from an environment record [Env]. *)

From Stdlib Require Import ZArith Bool List Lia Floats.
From stdpp Require Import base option strings gmap pretty.

Open Scope Z_scope.

(** ** JavaScript values *)

(** A [Blob] is its bytes. *)
Abbreviation Blob := (list Byte.byte).

(** A [number] is a binary64 float, with the IEEE 754 operations JavaScript
    uses.  Times ([Date.now()], [timestamp]) are integers; [number_of_Z] is
    the number that holds one (exactly, below 2^53 in magnitude, which covers
    the range of [Date]). *)
Definition number_of_Z (z : Z) : float :=
  match z with
  | Z0 => 0%float
  | Zpos _ => PrimFloat.of_uint63 (Uint63.of_Z z)
  | Zneg p => PrimFloat.opp (PrimFloat.of_uint63 (Uint63.of_Z (Zpos p)))
  end.

(** Truthiness of a [number]: every number but [0], [-0] and [NaN]. *)
Definition truthy_number (x : float) : bool :=
  negb (PrimFloat.eqb x 0) && negb (PrimFloat.is_nan x).

(** Truthiness of a [string | null]: a string that is not empty. *)
Definition truthy_string (o : option string) : bool :=
  match o with
  | Some s => negb (String.eqb s "")
  | None => false
  end.

(** [a > b] on numbers. *)
Definition gtb (a b : float) : bool := PrimFloat.ltb b a.

(** [s?.startsWith(p)] on a [string | null]. *)
Definition startsWith (p : string) (o : option string) : bool :=
  match o with
  | Some s => String.prefix p s
  | None => false
  end.

(** What a rejected promise carries. *)
Inductive JsError :=
  | IndexedDBOpenFailed
  | NetworkError
  | BodyError.

(** ** Promises: state and exceptions *)

Inductive Settled (A : Type) :=
  | Fulfilled (a : A)
  | Rejected (e : JsError).
Arguments Fulfilled {A} a.
Arguments Rejected {A} e.

Definition Async (S A : Type) : Type := S -> Settled A * S.

Definition ret {S A} (a : A) : Async S A := fun s => (Fulfilled a, s).

Definition throw {S A} (e : JsError) : Async S A := fun s => (Rejected e, s).

Definition bind {S A B} (m : Async S A) (k : A -> Async S B) : Async S B :=
  fun s =>
    match m s with
    | (Fulfilled a, s') => k a s'
    | (Rejected e, s') => (Rejected e, s')
    end.

Notation "x <- m ;; k" := (bind m (fun x => k))
  (at level 100, m at next level, right associativity).
Notation "m ;;; k" := (bind m (fun _ => k))
  (at level 100, right associativity).

(** [try { m } catch (e) { h e }]. *)
Definition try_catch {S A} (m : Async S A) (h : JsError -> Async S A) : Async S A :=
  fun s =>
    match m s with
    | (Fulfilled a, s') => (Fulfilled a, s')
    | (Rejected e, s') => h e s'
    end.

(** [try { m } finally { f }], for a [finally] block that does not throw. *)
Definition try_finally {S A} (m : Async S A) (f : S -> S) : Async S A :=
  fun s => let '(r, s') := m s in (r, f s').

(** A promise that is started and never awaited: its effects happen, its
    outcome (a rejection too) is dropped. *)
Definition forget {S A} (m : Async S A) : Async S unit :=
  fun s => (Fulfilled tt, snd (m s)).

Definition gets {S A} (f : S -> A) : Async S A := fun s => (Fulfilled (f s), s).

Definition modify {S} (f : S -> S) : Async S unit := fun s => (Fulfilled tt, f s).

(** [if (c) { m }] with no [else]. *)
Definition when {S} (c : bool) (m : Async S unit) : Async S unit :=
  if c then m else ret tt.

(** ** The data model *)

(** [interface CachedImage] of [types.ts]; [timestamp] is in milliseconds,
    [expiresIn] in seconds. *)
Record CachedImage := mkCachedImage {
  key : string;
  blob : Blob;
  timestamp : Z;
  expiresIn : option float
}.

(** A file of the native cache directory; [mtime] is in seconds. *)
Record File := mkFile {
  content : Blob;
  mtime : float
}.

(** The world outside the component: the [webCache] singleton, the browser's
    database and object URLs, the clock, the network log, the file system. *)
Record World := mkWorld {
  db : bool;                        (* [webCache.db] is not null *)
  images : gmap string CachedImage; (* object store [STORE_NAME] of [DB_NAME] *)
  objectURLs : gmap string Blob;    (* object URLs created and not revoked *)
  urlCount : nat;                   (* object URLs created so far *)
  now : Z;                          (* [Date.now()], milliseconds *)
  requests : list string;           (* URIs requested from the network, latest first *)
  files : gmap string File          (* the file system *)
}.

Definition set_db (b : bool) (w : World) : World :=
  mkWorld b (images w) (objectURLs w) (urlCount w) (now w) (requests w) (files w).
Definition set_images (m : gmap string CachedImage) (w : World) : World :=
  mkWorld (db w) m (objectURLs w) (urlCount w) (now w) (requests w) (files w).
Definition set_objectURLs (m : gmap string Blob) (n : nat) (w : World) : World :=
  mkWorld (db w) (images w) m n (now w) (requests w) (files w).
Definition set_now (t : Z) (w : World) : World :=
  mkWorld (db w) (images w) (objectURLs w) (urlCount w) t (requests w) (files w).
Definition set_requests (l : list string) (w : World) : World :=
  mkWorld (db w) (images w) (objectURLs w) (urlCount w) (now w) l (files w).
Definition set_files (m : gmap string File) (w : World) : World :=
  mkWorld (db w) (images w) (objectURLs w) (urlCount w) (now w) (requests w) m.

(** What [fetch(uri)] does: it rejects, or it answers with [response.ok] and a
    body; [response.blob()] yields the bytes or rejects ([None]). *)
Inductive FetchOutcome :=
  | FetchRejects
  | FetchResponse (ok : bool) (body : option Blob).

(** What [FileSystem.downloadAsync] does: it rejects, or it writes the body it
    received to the target file and answers with the HTTP status. *)
Inductive DownloadOutcome :=
  | DownloadRejects
  | DownloadResult (status : Z) (body : Blob).

(** The behaviour of the collaborators during one operation. *)
Record Env := mkEnv {
  open_ok : bool;     (* [indexedDB.open]: [onsuccess] (true) or [onerror] *)
  get_ok : bool;      (* the [store.get] request: [onsuccess] or [onerror] *)
  put_ok : bool;      (* the [store.put] request: [onsuccess] or [onerror] *)
  delete_ok : bool;   (* the delete transaction: [oncomplete] or [onerror] *)
  fetch_outcome : string -> FetchOutcome;
  download_outcome : string -> DownloadOutcome;
  transfer_ms : Z     (* how long a network transfer takes *)
}.

(** ** Browser primitives *)

(** [URL.createObjectURL(blob)]: a fresh ["blob:"] URL that refers to the bytes. *)
Definition createObjectURL (b : Blob) : Async World string :=
  fun w =>
    let url := "blob:" +:+ pretty (urlCount w) in
    (Fulfilled url, set_objectURLs (<[url := b]> (objectURLs w)) (S (urlCount w)) w).

(** [URL.revokeObjectURL(url)]. *)
Definition revokeObjectURL (url : string) (w : World) : World :=
  set_objectURLs (delete url (objectURLs w)) (urlCount w) w.

(** [fetch(uri)]: the request is issued, time passes, the outcome is the
    environment's. *)
Definition fetch (env : Env) (uri : string) : Async World (bool * option Blob) :=
  fun w =>
    let w' := set_now (now w + transfer_ms env) (set_requests (uri :: requests w) w) in
    match fetch_outcome env uri with
    | FetchRejects => (Rejected NetworkError, w')
    | FetchResponse ok body => (Fulfilled (ok, body), w')
    end.

(** [response.blob()]. *)
Definition response_blob (body : option Blob) : Async World Blob :=
  match body with
  | Some b => ret b
  | None => throw BodyError
  end.

(** The bytes a handle refers to: those of a live object URL. *)
Definition bytes_of (w : World) (handle : string) : option Blob :=
  objectURLs w !! handle.

(** ** [class WebImageCache] *)

Section WebImageCache.

(** [sanitizeCacheKey] of [utils.ts]. *)
Variable sanitizeCacheKey : string -> string.

Variable env : Env.

(** [async init()]. *)
Definition init : Async World unit :=
  fun w =>
    if db w then (Fulfilled tt, w)
    else if open_ok env then (Fulfilled tt, set_db true w)
    else (Rejected IndexedDBOpenFailed, w).

(** [(Date.now() - data.timestamp) / 1000]. *)
Definition elapsed (t : Z) (data : CachedImage) : float :=
  ((number_of_Z t - number_of_Z (timestamp data)) / 1000)%float.

(** The expiration check of [getImage]:
    [if (data.expiresIn) { ... if (elapsed > data.expiresIn) ... }]. *)
Definition isExpired (t : Z) (data : CachedImage) : bool :=
  match expiresIn data with
  | Some e => truthy_number e && gtb (elapsed t data) e
  | None => false
  end.

(** [async deleteImage(key)]. *)
Definition deleteImage (k : string) : Async World unit :=
  init ;;;
  let sanitizedKey := sanitizeCacheKey k in
  opened <- gets db ;;
  if negb opened then ret tt
  else
    when (delete_ok env)
      (modify (fun w => set_images (delete sanitizedKey (images w)) w)).

(** [async getImage(key)].  On an expired entry [this.deleteImage(sanitizedKey)]
    is started and not awaited; its delete request is queued on the database
    before any request of a later transaction, so its effect is in place when
    the next operation on the store runs.  [deleteImage] sanitizes the key it
    is given once more. *)
Definition getImage (k : string) : Async World (option string) :=
  init ;;;
  let sanitizedKey := sanitizeCacheKey k in
  opened <- gets db ;;
  if negb opened then ret None
  else if negb (get_ok env) then ret None
  else
    data <- gets (fun w => images w !! sanitizedKey) ;;
    match data with
    | None => ret None
    | Some data =>
        t <- gets now ;;
        if isExpired t data then
          forget (deleteImage sanitizedKey) ;;;
          ret None
        else
          url <- createObjectURL (blob data) ;;
          ret (Some url)
    end.

(** [async saveImage(key, blob, expiresIn)]. *)
Definition saveImage (k : string) (b : Blob) (expires : option float)
  : Async World (option string) :=
  init ;;;
  let sanitizedKey := sanitizeCacheKey k in
  opened <- gets db ;;
  if negb opened then ret None
  else
    t <- gets now ;;
    let data := mkCachedImage sanitizedKey b t expires in
    if put_ok env then
      modify (fun w => set_images (<[sanitizedKey := data]> (images w)) w) ;;;
      url <- createObjectURL b ;;
      ret (Some url)
    else ret None.

(** The [try] block of [downloadAndCache]. *)
Definition downloadAndCache_try (uri k : string) (expires : option float)
  : Async World (option string) :=
  response <- fetch env uri ;;
  if negb (fst response) then ret None
  else
    b <- response_blob (snd response) ;;
    saveImage k b expires.

(** [async downloadAndCache(uri, key, expiresIn)]. *)
Definition downloadAndCache (uri k : string) (expires : option float)
  : Async World (option string) :=
  try_catch (downloadAndCache_try uri k expires) (fun _ => ret None).

End WebImageCache.

(** ** The component *)

(** [Platform.OS]. *)
Inductive OS := web | ios | android | windows | macos.

Definition is_web (os : OS) : bool :=
  match os with
  | web => true
  | _ => false
  end.

(** The props the caching logic reads: [source.uri], [cacheKey],
    [source.expiresIn], [lazy], [preview], [previewCacheKey]. *)
Module Props.
Record t := mk {
  uri : string;
  cacheKey : string;
  expiresIn : option float;
  lazy : bool;
  preview : option string;
  previewCacheKey : option string
}.
End Props.

(** A call of one of the component's state setters. *)
Inductive StateUpdate :=
  | SetImgUri (v : option string)
  | SetPreviewUri (v : option string)
  | SetIsLoading (b : bool)
  | SetHasError (b : bool).

(** One instance of the component: its four pieces of state, the ref
    [componentIsMounted.current], the number of cross-fades started, whether
    the effect's cleanup has run, and the setters called after it ran. *)
Record Component := mkComponent {
  imgUri : option string;
  previewUri : option string;
  isLoading : bool;
  hasError : bool;
  componentIsMounted : bool;
  animations : nat;
  tornDown : bool;
  lateUpdates : list StateUpdate
}.

Definition set_mounted (b : bool) (c : Component) : Component :=
  mkComponent (imgUri c) (previewUri c) (isLoading c) (hasError c) b
    (animations c) (tornDown c) (lateUpdates c).

Definition set_tornDown (c : Component) : Component :=
  mkComponent (imgUri c) (previewUri c) (isLoading c) (hasError c)
    (componentIsMounted c) (animations c) true (lateUpdates c).

Definition animate (c : Component) : Component :=
  mkComponent (imgUri c) (previewUri c) (isLoading c) (hasError c)
    (componentIsMounted c) (S (animations c)) (tornDown c) (lateUpdates c).

(** A setter writes its piece of state; a call made after the cleanup ran is
    recorded. *)
Definition update (u : StateUpdate) (c : Component) : Component :=
  let late := if tornDown c then u :: lateUpdates c else lateUpdates c in
  match u with
  | SetImgUri v =>
      mkComponent v (previewUri c) (isLoading c) (hasError c)
        (componentIsMounted c) (animations c) (tornDown c) late
  | SetPreviewUri v =>
      mkComponent (imgUri c) v (isLoading c) (hasError c)
        (componentIsMounted c) (animations c) (tornDown c) late
  | SetIsLoading b =>
      mkComponent (imgUri c) (previewUri c) b (hasError c)
        (componentIsMounted c) (animations c) (tornDown c) late
  | SetHasError b =>
      mkComponent (imgUri c) (previewUri c) (isLoading c) b
        (componentIsMounted c) (animations c) (tornDown c) late
  end.

(** The component together with the world it runs in. *)
Record Sys := mkSys {
  world : World;
  comp : Component
}.

Definition in_world {A} (m : Async World A) : Async Sys A :=
  fun s => let '(r, w) := m (world s) in (r, mkSys w (comp s)).

Definition on_comp (f : Component -> Component) : Async Sys unit :=
  modify (fun s => mkSys (world s) (f (comp s))).

Definition setImgUri (v : option string) := on_comp (update (SetImgUri v)).
Definition setPreviewUri (v : option string) := on_comp (update (SetPreviewUri v)).
Definition setIsLoading (b : bool) := on_comp (update (SetIsLoading b)).
Definition setHasError (b : bool) := on_comp (update (SetHasError b)).
Definition animateImageLoad := on_comp animate.
Definition isMounted : Async Sys bool := gets (fun s => componentIsMounted (comp s)).

(** The places where [loadImageAsync] and [loadPreviewImage] are suspended. *)
Inductive AwaitPoint :=
  | AwaitPreview           (* [await webCache.getImage(previewCacheKey)] *)
  | AwaitGetImage          (* [await webCache.getImage(cacheKey)] *)
  | AwaitDownloadAndCache  (* [await webCache.downloadAndCache(...)] *)
  | AwaitGetInfo           (* [await FileSystem.getInfoAsync(fileURI)] *)
  | AwaitDeleteExpired     (* [await FileSystem.deleteAsync] of [handleExpiredImage] *)
  | AwaitDownload          (* [await FileSystem.downloadAsync(...)] *)
  | AwaitDeleteFailed.     (* [await FileSystem.deleteAsync] of [handleSuccessfulDownload] *)

(** Metadata as [FileSystem.getInfoAsync] reports it: [exists: false], or
    [exists: true] with [size] and [modificationTime] (seconds). *)
Inductive FileInfo :=
  | NoFile
  | FileStat (size : Z) (modificationTime : float).

Definition fi_exists (metadata : FileInfo) : bool :=
  match metadata with
  | NoFile => false
  | FileStat _ _ => true
  end.

(** [metadata?.size === 0]. *)
Definition fi_size_is_zero (metadata : FileInfo) : bool :=
  match metadata with
  | NoFile => false
  | FileStat size _ => size =? 0
  end.

(** ** File-system primitives *)

(** The metadata of [path] in the file system of [w]. *)
Definition fileInfo (w : World) (path : string) : FileInfo :=
  match files w !! path with
  | Some f => FileStat (Z.of_nat (length (content f))) (mtime f)
  | None => NoFile
  end.

Definition getInfoAsync (path : string) : Async World FileInfo :=
  gets (fun w => fileInfo w path).

(** [FileSystem.deleteAsync(path, { idempotent: true })]. *)
Definition deleteAsync (path : string) : Async World unit :=
  modify (fun w => set_files (delete path (files w)) w).

(** [FileSystem.downloadAsync(uri, path, options)]: the request is issued and
    time passes; a response is written to [path] whatever its status. *)
Definition downloadAsync (env : Env) (uri path : string) : Async World Z :=
  fun w =>
    let w' := set_now (now w + transfer_ms env) (set_requests (uri :: requests w) w) in
    match download_outcome env uri with
    | DownloadRejects => (Rejected NetworkError, w')
    | DownloadResult status body =>
        (Fulfilled status,
         set_files
           (<[path := mkFile body (number_of_Z (now w') / 1000)%float]> (files w'))
           w')
    end.

(** ** [useIntersectionObserver] *)

(** The hook's state: [isIntersecting], and whether its effect has an
    [IntersectionObserver] observe the target. *)
Record Observer := mkObserver {
  isIntersecting : bool;
  observing : bool
}.

(** [useState(false)], no observer yet. *)
Definition initialObserver : Observer := mkObserver false false.

(** The hook's effect; [target] tells whether [targetRef.current] is set. *)
Definition observerEffect (enabled : bool) (os : OS) (target : bool) (o : Observer)
  : Observer :=
  if negb enabled || negb (is_web os) || negb target then
    if negb enabled || negb (is_web os)
    then mkObserver true (observing o)
    else o
  else mkObserver (isIntersecting o) target.

(** The observer's callback, called by the browser with [entry.isIntersecting];
    only an observer that observes the target is called. *)
Definition observerCallback (entryIsIntersecting : bool) (o : Observer) : Observer :=
  if observing o then mkObserver entryIsIntersecting true else o.

(** The test the component's effect makes before it starts the main load:
    [!lazy || isIntersecting]. *)
Definition startsLoading (lazy isIntersecting : bool) : bool :=
  negb lazy || isIntersecting.

(** ** [const CachedImage: React.FC<CachedImageProps>] *)

Section CachedImage.

Variable sanitizeCacheKey : string -> string.
Variable os : OS.                         (* [Platform.OS] *)
Variable cacheDirectory : string.         (* [FileSystem.cacheDirectory] *)
Variable props : Props.t.
Variable env : Env.

(** The instance is torn down during the suspensions [teardownAt] selects. *)
Variable teardownAt : AwaitPoint -> bool.

Let uri := Props.uri props.
Let cacheKey := Props.cacheKey props.
Let expiresIn := Props.expiresIn props.

Definition IMAGE_CACHE_FOLDER : string :=
  if is_web os then "image-cache" else cacheDirectory.

Definition fileURI : string :=
  if is_web os then ""
  else IMAGE_CACHE_FOLDER +:+ sanitizeCacheKey cacheKey +:+ ".png".

(** The state of a fresh instance: [useState] and [useRef] initial values. *)
Definition initialComponent : Component :=
  mkComponent (if is_web os then None else Some fileURI)
    (if truthy_string (Props.preview props) then Props.preview props else None)
    true false false 0%nat false [].

(** The function the effect returns.  [held] is the pair [(imgUri, previewUri)]
    of the render whose effect this is: the closure reads these, not the
    state at the time it is called. *)
Definition cleanup (held : option string * option string) (s : Sys) : Sys :=
  let c := set_tornDown (set_mounted false (comp s)) in
  let w := world s in
  let w :=
    if is_web os then
      let w := if startsWith "blob:" (fst held)
               then revokeObjectURL (default "" (fst held)) w else w in
      if startsWith "blob:" (snd held)
      then revokeObjectURL (default "" (snd held)) w else w
    else w in
  mkSys w c.

(** [await m]: [m] runs; if the instance is torn down while the caller is
    suspended, the cleanup has run by the time the caller resumes. *)
Definition await {A} (held : option string * option string) (p : AwaitPoint)
    (m : Async Sys A) : Async Sys A :=
  fun s =>
    let '(r, s') := m s in
    (r, if teardownAt p && negb (tornDown (comp s')) then cleanup held s' else s').

Section Render.

Variable held : option string * option string.

(** [loadPreviewImage]. *)
Definition loadPreviewImage : Async Sys unit :=
  if negb (truthy_string (Props.preview props))
     || negb (truthy_string (Props.previewCacheKey props))
  then ret tt
  else
    when (is_web os)
      (cachedPreview <- await held AwaitPreview
         (in_world (getImage sanitizeCacheKey env
                      (default "" (Props.previewCacheKey props)))) ;;
       when (truthy_string cachedPreview) (setPreviewUri cachedPreview)).

(** [loadImageWeb]. *)
Definition loadImageWeb : Async Sys unit :=
  cachedUri <- await held AwaitGetImage
    (in_world (getImage sanitizeCacheKey env cacheKey)) ;;
  mounted <- isMounted ;;
  if truthy_string cachedUri && mounted then
    setImgUri cachedUri ;;;
    animateImageLoad
  else
    mounted <- isMounted ;;
    when mounted
      (newUri <- await held AwaitDownloadAndCache
         (in_world (downloadAndCache sanitizeCacheKey env uri cacheKey expiresIn)) ;;
       mounted <- isMounted ;;
       when mounted
         (if truthy_string newUri then
            setImgUri newUri ;;;
            animateImageLoad
          else
            setImgUri (Some uri) ;;;
            animateImageLoad)).

(** [isImageExpired(metadata)], at time [t] (milliseconds). *)
Definition isImageExpired (t : Z) (metadata : FileInfo) : bool :=
  match metadata with
  | NoFile => false
  | FileStat _ modificationTime =>
      match expiresIn with
      | Some e =>
          truthy_number e
          && gtb (number_of_Z t / 1000 - modificationTime)%float e
      | None => false
      end
  end.

(** [shouldDownloadImage(metadata)]. *)
Definition shouldDownloadImage (t : Z) (metadata : FileInfo) : bool :=
  negb (fi_exists metadata) || fi_size_is_zero metadata
  || isImageExpired t metadata.

(** [handleSuccessfulDownload(response)], on [response.status]. *)
Definition handleSuccessfulDownload (status : Z) : Async Sys unit :=
  mounted <- isMounted ;;
  if negb mounted then ret tt
  else if status =? 200 then
    t <- gets (fun s => now (world s)) ;;
    setImgUri (Some (fileURI +:+ "?" +:+ pretty t)) ;;;
    animateImageLoad
  else
    await held AwaitDeleteFailed (in_world (deleteAsync fileURI)) ;;;
    setImgUri (Some uri) ;;;
    animateImageLoad.

(** [downloadImage]. *)
Definition downloadImage : Async Sys unit :=
  mounted <- isMounted ;;
  if negb mounted then ret tt
  else
    response <- await held AwaitDownload
      (in_world (downloadAsync env uri fileURI)) ;;
    handleSuccessfulDownload response.

(** [handleExpiredImage]. *)
Definition handleExpiredImage : Async Sys unit :=
  await held AwaitDeleteExpired (in_world (deleteAsync fileURI)) ;;;
  downloadImage.

(** [loadImageNative]. *)
Definition loadImageNative : Async Sys unit :=
  metadata <- await held AwaitGetInfo (in_world (getInfoAsync fileURI)) ;;
  t <- gets (fun s => now (world s)) ;;
  if negb (shouldDownloadImage t metadata) then
    mounted <- isMounted ;;
    when mounted animateImageLoad
  else if isImageExpired t metadata then handleExpiredImage
  else downloadImage.

(** The body of the [try] of [loadImageAsync]. *)
Definition platformLoad : Async Sys unit :=
  if is_web os then loadImageWeb else loadImageNative.

(** [loadImageAsync]. *)
Definition loadImageAsync : Async Sys unit :=
  setIsLoading true ;;;
  setHasError false ;;;
  try_finally
    (try_catch
       platformLoad
       (fun _ =>
          setHasError true ;;;
          mounted <- isMounted ;;
          when mounted (setImgUri (Some uri))))
    (fun s => mkSys (world s) (update (SetIsLoading false) (comp s))).

End Render.

(** The body of the [useEffect] with dependencies
    [uri, cacheKey, lazy, isIntersecting], run in a render where the hook
    reported [isIntersecting].  Its two loads are started one after the
    other and not awaited; the cleanup it returns holds the [imgUri] and
    [previewUri] of that render. *)
Definition effect (isIntersecting : bool) : Async Sys unit :=
  fun s =>
    let held := (imgUri (comp s), previewUri (comp s)) in
    (on_comp (set_mounted true) ;;;
     when (truthy_string (Props.preview props)
           && negb (truthy_string (previewUri (comp s)))
           && truthy_string (Props.previewCacheKey props))
       (forget (loadPreviewImage held)) ;;;
     when (startsLoading (Props.lazy props) isIntersecting)
       (forget (loadImageAsync held))) s.

(** The instance is unmounted after its effect ran in state [s0]: the cleanup
    of that effect runs, unless a suspension already ran it. *)
Definition unmount (s0 s : Sys) : Sys :=
  if tornDown (comp s) then s
  else cleanup (imgUri (comp s0), previewUri (comp s0)) s.

(** [onError] of the rendered [Animated.Image]: the image failed to render. *)
Definition onError : Async Sys unit :=
  mounted <- isMounted ;;
  when mounted (setHasError true).

(** [onLoad] of the rendered [Animated.Image]. *)
Definition onLoad : Async Sys unit :=
  mounted <- isMounted ;;
  when mounted animateImageLoad.

End CachedImage.

(** ** Vocabulary of the statements *)

(** The characters kept by [sanitize_strip]: letters, digits, [-] and [_]. *)
Definition keep_char (a : Ascii.ascii) : bool :=
  let n := Ascii.nat_of_ascii a in
  ((48 <=? n) && (n <=? 57) || (65 <=? n) && (n <=? 90)
   || (97 <=? n) && (n <=? 122) || (n =? 45) || (n =? 95))%nat.

(** Modelled from the spec: [sanitizeCacheKey] of [utils.ts], which is not
    among the sources.  The sanitizer strips the characters that are not safe
    in a file name or an object-store key.  The operations above take the
    sanitizer as a parameter; this one instantiates it in the examples. *)
Fixpoint sanitize_strip (s : string) : string :=
  match s with
  | EmptyString => EmptyString
  | String a s' =>
      if keep_char a then String a (sanitize_strip s') else sanitize_strip s'
  end.

(** The database can be used: it is open already, or opening it succeeds. *)
Definition storage_opens (env : Env) (w : World) : Prop :=
  db w = true \/ open_ok env = true.

(** The network fetch of [uri] fails, or answers a non-success status. *)
Definition fetch_fails (env : Env) (uri : string) : Prop :=
  match fetch_outcome env uri with
  | FetchRejects => True
  | FetchResponse ok _ => ok = false
  end.

(** The lookup of [k] misses: no entry, or an expired one. *)
Definition stale_or_absent (w : World) (k : string) : Prop :=
  match images w !! k with
  | Some data => isExpired (now w) data = true
  | None => True
  end.

(** [(t1 - t0) / 1000]: the seconds from [t0] to [t1], as [getImage] computes
    them for an entry stored at [t0] and read at [t1]. *)
Definition seconds_between (t0 t1 : Z) : float :=
  ((number_of_Z t1 - number_of_Z t0) / 1000)%float.

(** [t1 / 1000 - t0 / 1000]: the age at [t1] of a file written at [t0], as
    [isImageExpired] computes it. *)
Definition file_age (t0 t1 : Z) : float :=
  (number_of_Z t1 / 1000 - number_of_Z t0 / 1000)%float.

(** [dt] milliseconds pass. *)
Definition later (dt : Z) (s : Sys) : Sys :=
  mkSys (set_now (now (world s) + dt) (world s)) (comp s).

(** The state in which [loadImageAsync] enters its [try]: after
    [setIsLoading(true)] and [setHasError(false)]. *)
Definition loading (s : Sys) : Sys :=
  mkSys (world s)
    (update (SetHasError false) (update (SetIsLoading true) (comp s))).

(** The instance is not torn down during any suspension. *)
Definition never : AwaitPoint -> bool := fun _ => false.

(** The instance is torn down during the suspension [p]. *)
Definition during (p : AwaitPoint) : AwaitPoint -> bool :=
  fun q =>
    match p, q with
    | AwaitPreview, AwaitPreview
    | AwaitGetImage, AwaitGetImage
    | AwaitDownloadAndCache, AwaitDownloadAndCache
    | AwaitGetInfo, AwaitGetInfo
    | AwaitDeleteExpired, AwaitDeleteExpired
    | AwaitDownload, AwaitDownload
    | AwaitDeleteFailed, AwaitDeleteFailed => true
    | _, _ => false
    end.

(** The promise [m] started in [s] is rejected. *)
Definition rejects {S A} (m : Async S A) (s : S) : bool :=
  match fst (m s) with
  | Fulfilled _ => false
  | Rejected _ => true
  end.

(** The promise [m] is never rejected. *)
Definition total {S A} (m : Async S A) : Prop :=
  forall s, rejects m s = false.

(** The promise [m] leaves the component's [g] as it was. *)
Definition keeps {A B} (g : Component -> B) (m : Async Sys A) : Prop :=
  forall s, g (comp (snd (m s))) = g (comp s).

(** Concrete collaborators for the examples. *)
Definition png : Blob := [Byte.x89; Byte.x50; Byte.x4e; Byte.x47].

(** Everything works: the fetch answers 200 with [png]. *)
Definition env_ok : Env :=
  mkEnv true true true true
    (fun _ => FetchResponse true (Some png))
    (fun _ => DownloadResult 200 png) 120.

(** Storage works, the server answers 404. *)
Definition env_404 : Env :=
  mkEnv true true true true
    (fun _ => FetchResponse false (Some []))
    (fun _ => DownloadResult 404 []) 120.

(** IndexedDB cannot be opened (the network works). *)
Definition env_no_storage : Env :=
  mkEnv false true true true
    (fun _ => FetchResponse true (Some png))
    (fun _ => DownloadResult 200 png) 120.

(** The network is down (storage works). *)
Definition env_offline : Env :=
  mkEnv true true true true
    (fun _ => FetchRejects) (fun _ => DownloadRejects) 120.

(** A browser or device with an empty cache, at time 1000. *)
Definition world0 : World := mkWorld false ∅ ∅ 0 1000 [] ∅.

Definition props1 : Props.t :=
  Props.mk "https://x/img.png" "k1" (Some 60%float) false None None.

(** A fresh instance in [world0], before its effect runs. *)
Definition fresh (os : OS) : Sys :=
  mkSys world0 (initialComponent sanitize_strip os "file:///cache/" props1).

(** A fresh instance in [world0] whose effect has set the mounted ref. *)
Definition sys0 (os : OS) : Sys :=
  mkSys world0
    (set_mounted true (initialComponent sanitize_strip os "file:///cache/" props1)).

(** A browser whose store holds an entry written at time 0 with
    [expiresIn = 1], read after two seconds. *)
Definition world_expired : World :=
  mkWorld true (<["k1" := mkCachedImage "k1" png 0 (Some 1%float)]> ∅) ∅ 0 2001 [] ∅.

(** A browser whose store holds an entry written at time 0 with
    [expiresIn = 0], read after five seconds. *)
Definition world_zero : World :=
  mkWorld true (<["k1" := mkCachedImage "k1" png 0 (Some 0%float)]> ∅) ∅ 0 5000 [] ∅.

(** A device whose cache holds an empty file under the key of [props1]. *)
Definition world_empty_file : World :=
  mkWorld false ∅ ∅ 0 1000 []
    (<["file:///cache/k1.png" := mkFile [] 0%float]> ∅).

(** A device whose cache directory holds a zero-byte file for [k1] written
    at time 0, a hundred seconds ago. *)
Definition world_old_empty_file : World :=
  mkWorld false ∅ ∅ 0 100000 []
    (<["file:///cache/k1.png" := mkFile [] 0%float]> ∅).

(** ** More of the component and of the hook *)

(** Which of its three [return]s [renderContent] takes, with what it shows:
    the lazy placeholder; the loading view, over the preview when there is
    one; the image with source [imgUri], over the preview when there is one. *)
Inductive Rendered :=
  | RenderPlaceholder
  | RenderLoading (shownPreview : option string)
  | RenderImage (shownPreview : option string) (source : option string).

(** [previewUri && <Animated.Image source={{ uri: previewUri }} ... />]. *)
Definition shownPreview (c : Component) : option string :=
  if truthy_string (previewUri c) then previewUri c else None.

(** [renderContent], in a render where the hook reports [isIntersecting]. *)
Definition renderContent (props : Props.t) (isIntersecting : bool) (c : Component)
  : Rendered :=
  if Props.lazy props && negb isIntersecting then RenderPlaceholder
  else if negb (truthy_string (imgUri c)) && negb (hasError c)
  then RenderLoading (shownPreview c)
  else RenderImage (shownPreview c) (imgUri c).

(** The function the hook's effect returns when it created an observer:
    [observer.unobserve(element)]. *)
Definition observerCleanup (o : Observer) : Observer :=
  mkObserver (isIntersecting o) false.

(** ** More vocabulary *)

(** The operation [m] of the backend leaves the part [g] of the world as it
    was. *)
Definition leavesW {A B} (g : World -> B) (m : Async World A) : Prop :=
  forall w, g (snd (m w)) = g w.

(** The component's [m] leaves the part [g] of the world as it was. *)
Definition leaves {A B} (g : World -> B) (m : Async Sys A) : Prop :=
  forall s, g (world (snd (m s))) = g (world s).

(** The component's [m] sends no request, or one request for [uri]. *)
Definition sends_at_most_one {A} (uri : string) (m : Async Sys A) : Prop :=
  forall s,
    requests (world (snd (m s))) = requests (world s)
    \/ requests (world (snd (m s))) = uri :: requests (world s).

(** The component's [m] keeps the property [P] of the component. *)
Definition preserves {A} (P : Component -> Prop) (m : Async Sys A) : Prop :=
  forall s, P (comp s) -> P (comp (snd (m s))).

(** Every entry of the store sits under the key it carries, and that key is
    the sanitized form of some key. *)
Definition wellKeyed (san : string -> string) (w : World) : Prop :=
  forall k data,
    images w !! k = Some data -> key data = k /\ exists raw, k = san raw.

(** A browser whose store holds a never-expiring entry for ["k1"]. *)
Definition world_cached : World :=
  mkWorld true (<["k1" := mkCachedImage "k1" png 0 None]> ∅) ∅ 0 1000 [] ∅.

(** Props with a preview and its cache key, lazily loaded. *)
Definition props_lazy_preview : Props.t :=
  Props.mk "https://x/img.png" "k1" (Some 60%float) true
    (Some "data:image/png;base64,AAAA") (Some "k1").

(** The server answers 200 with an empty body. *)
Definition env_empty_body : Env :=
  mkEnv true true true true
    (fun _ => FetchResponse true (Some []))
    (fun _ => DownloadResult 200 []) 120.

(** The database opens but its requests fail. *)
Definition env_io_error : Env :=
  mkEnv true false false false
    (fun _ => FetchResponse true (Some png))
    (fun _ => DownloadResult 200 png) 120.

(** * Proofs *)

(** ** Reduction of the monadic code *)

Ltac proj :=
  cbn [db images objectURLs urlCount now requests files
       set_db set_images set_objectURLs set_now set_requests set_files
       world comp fst snd negb andb orb].

Ltac run :=
  unfold in_world, on_comp, bind, ret, throw, gets, modify, when, forget,
         try_catch, try_finally; proj.

(** ** The sanitizer of the examples *)

Lemma sanitize_strip_idempotent k :
  sanitize_strip (sanitize_strip k) = sanitize_strip k.
Proof.
  induction k as [|a k IH]; [reflexivity|].
  simpl. destruct (keep_char a) eqn:Ha; [|exact IH].
  simpl. rewrite Ha, IH. reflexivity.
Qed.

(** ** Numbers *)

Lemma truthy_number_spec x :
  truthy_number x = true <-> PrimFloat.eqb x 0 = false /\ PrimFloat.is_nan x = false.
Proof.
  unfold truthy_number. rewrite andb_true_iff, !negb_true_iff. reflexivity.
Qed.

(** ** [WebImageCache] *)

Lemma set_db_true_id w : db w = true -> set_db true w = w.
Proof. destruct w; simpl; intros ->; reflexivity. Qed.

Lemma init_opens env w :
  storage_opens env w -> init env w = (Fulfilled tt, set_db true w).
Proof.
  intros [H | H]; unfold init.
  - rewrite H, set_db_true_id; auto.
  - destruct (db w) eqn:E; [rewrite set_db_true_id; auto|].
    rewrite H. reflexivity.
Qed.

Lemma init_fails env w :
  db w = false -> open_ok env = false ->
  init env w = (Rejected IndexedDBOpenFailed, w).
Proof. intros H1 H2. unfold init. rewrite H1, H2. reflexivity. Qed.

Lemma isExpired_spec t data :
  isExpired t data = true <->
  exists e, expiresIn data = Some e /\ truthy_number e = true
            /\ gtb (elapsed t data) e = true.
Proof.
  unfold isExpired. destruct (expiresIn data) as [e|].
  - rewrite andb_true_iff. split.
    + intros [H1 H2]. exists e. auto.
    + intros (e' & [= <-] & H1 & H2). auto.
  - split; [discriminate | intros (e & [=] & _)].
Qed.

Lemma not_expired_within (t0 dt : Z) (b : Blob) (k : string) (e : option float) :
  (e = None \/ exists q, e = Some q
                        /\ gtb (seconds_between t0 (t0 + dt)) q = false) ->
  isExpired (t0 + dt) (mkCachedImage k b t0 e) = false.
Proof.
  intros He. unfold isExpired. cbn [expiresIn].
  destruct He as [-> | (q & -> & Hq)]; [reflexivity|].
  change (elapsed (t0 + dt) (mkCachedImage k b t0 (Some q)))
    with (seconds_between t0 (t0 + dt)).
  rewrite Hq. apply andb_false_r.
Qed.

Lemma getImage_hit san env k w data :
  storage_opens env w -> get_ok env = true ->
  images w !! san k = Some data -> isExpired (now w) data = false ->
  getImage san env k w =
    (Fulfilled (Some ("blob:" +:+ pretty (urlCount w))),
     set_objectURLs (<["blob:" +:+ pretty (urlCount w) := blob data]> (objectURLs w))
       (S (urlCount w)) (set_db true w)).
Proof.
  intros Ho Hg Hl He. unfold getImage. run. rewrite (init_opens _ _ Ho).
  proj. rewrite Hg. proj. rewrite Hl. proj. rewrite He. reflexivity.
Qed.

Lemma getImage_absent san env k w :
  storage_opens env w -> images w !! san k = None ->
  getImage san env k w = (Fulfilled None, set_db true w).
Proof.
  intros Ho Hl. unfold getImage. run. rewrite (init_opens _ _ Ho).
  proj. destruct (get_ok env); proj; [rewrite Hl|]; reflexivity.
Qed.

Lemma getImage_expired san env k w data :
  storage_opens env w -> get_ok env = true ->
  images w !! san k = Some data -> isExpired (now w) data = true ->
  getImage san env k w =
    (Fulfilled None,
     if delete_ok env
     then set_images (delete (san (san k)) (images w)) (set_db true w)
     else set_db true w).
Proof.
  intros Ho Hg Hl He. unfold getImage. run. rewrite (init_opens _ _ Ho).
  proj. rewrite Hg. proj. rewrite Hl. proj. rewrite He.
  unfold deleteImage, init. run. destruct (delete_ok env); reflexivity.
Qed.

Lemma getImage_no_storage san env k w :
  db w = false -> open_ok env = false ->
  getImage san env k w = (Rejected IndexedDBOpenFailed, w).
Proof.
  intros H1 H2. unfold getImage. run. rewrite (init_fails _ _ H1 H2). reflexivity.
Qed.

Lemma saveImage_stores san env k b e w :
  storage_opens env w -> put_ok env = true ->
  saveImage san env k b e w =
    (Fulfilled (Some ("blob:" +:+ pretty (urlCount w))),
     set_objectURLs (<["blob:" +:+ pretty (urlCount w) := b]> (objectURLs w))
       (S (urlCount w))
       (set_images (<[san k := mkCachedImage (san k) b (now w) e]> (images w))
          (set_db true w))).
Proof.
  intros Ho Hp. unfold saveImage. run. rewrite (init_opens _ _ Ho).
  proj. rewrite Hp. reflexivity.
Qed.

Lemma saveImage_no_storage san env k b e w :
  db w = false -> open_ok env = false ->
  saveImage san env k b e w = (Rejected IndexedDBOpenFailed, w).
Proof.
  intros H1 H2. unfold saveImage. run. rewrite (init_fails _ _ H1 H2). reflexivity.
Qed.

Lemma storage_opens_dec env w :
  storage_opens env w \/ (db w = false /\ open_ok env = false).
Proof.
  unfold storage_opens. destruct (db w), (open_ok env); auto.
Qed.

Lemma downloadAndCache_fulfils san env uri k e w :
  exists r w', downloadAndCache san env uri k e w = (Fulfilled r, w').
Proof.
  unfold downloadAndCache, try_catch.
  destruct (downloadAndCache_try san env uri k e w) as [[r | err] w']; eauto.
Qed.

Lemma downloadAndCache_fetch_fails san env uri k e w :
  fetch_fails env uri ->
  downloadAndCache san env uri k e w =
    (Fulfilled None,
     set_now (now w + transfer_ms env) (set_requests (uri :: requests w) w)).
Proof.
  unfold fetch_fails, downloadAndCache, downloadAndCache_try, fetch. run.
  destruct (fetch_outcome env uri) as [|ok body]; [reflexivity|].
  intros ->. reflexivity.
Qed.

(** ** The claims about the browser backend *)

(** C4 (the code departs from the claim).  [getImage] is rejected whenever
    the database is not open and cannot be opened: [await this.init()] is
    outside any [try], so the rejection of [init] reaches the caller instead
    of the miss result [null].  In a browser with an empty cache where
    [indexedDB.open] fails, [getImage "k1"] is rejected. *)
Theorem getImage_rejects_when_open_fails :
  getImage sanitize_strip env_no_storage "k1" world0
    = (Rejected IndexedDBOpenFailed, world0)
  /\ (forall san env k w,
        db w = false -> open_ok env = false ->
        getImage san env k w = (Rejected IndexedDBOpenFailed, w)).
Proof.
  split; [reflexivity|]. intros. apply getImage_no_storage; assumption.
Qed.

Lemma getImage_rejects_when_open_fails_witness :
  getImage sanitize_strip env_no_storage "k2" world0
    = (Rejected IndexedDBOpenFailed, world0).
Proof.
  apply (proj2 getImage_rejects_when_open_fails
           sanitize_strip env_no_storage "k2" world0); reflexivity.
Defined.

(** C10.  [downloadAndCache] is never rejected, whatever the network and the
    storage do; whenever its [try] block is rejected the result is [null]; and
    the [try] block is rejected both by a network error and by a storage
    initialisation that fails inside [saveImage]. *)
Theorem downloadAndCache_never_rejects san env uri k e w :
  rejects (downloadAndCache san env uri k e) w = false
  /\ (rejects (downloadAndCache_try san env uri k e) w = true ->
      fst (downloadAndCache san env uri k e w) = Fulfilled None)
  /\ (fetch_outcome env uri = FetchRejects ->
      rejects (downloadAndCache_try san env uri k e) w = true)
  /\ (forall b, fetch_outcome env uri = FetchResponse true (Some b) ->
      db w = false -> open_ok env = false ->
      rejects (downloadAndCache_try san env uri k e) w = true).
Proof.
  repeat split.
  - unfold rejects.
    destruct (downloadAndCache_fulfils san env uri k e w) as (r & w' & ->).
    reflexivity.
  - unfold rejects, downloadAndCache, try_catch.
    destruct (downloadAndCache_try san env uri k e w) as [[r | err] w'];
      [discriminate | reflexivity].
  - intros H. unfold rejects, downloadAndCache_try, fetch. run. rewrite H.
    reflexivity.
  - intros b H Hd Ho. unfold rejects, downloadAndCache_try, fetch. run.
    rewrite H. proj. unfold response_blob. run.
    rewrite saveImage_no_storage; auto.
Qed.

Lemma downloadAndCache_never_rejects_witness :
  fst (downloadAndCache sanitize_strip env_no_storage "https://x/img.png" "k1"
         (Some 60%float) world0) = Fulfilled None.
Proof.
  apply (downloadAndCache_never_rejects sanitize_strip env_no_storage
           "https://x/img.png" "k1" (Some 60%float) world0).
  reflexivity.
Defined.

(** C5.  After [saveImage k p] has stored the payload, a [getImage k] made
    [dt] milliseconds later returns a handle whose bytes are [p], when no
    [expiresIn] was given or the seconds elapsed, computed as the code does,
    do not exceed [expiresIn]. *)
Theorem saveImage_getImage_roundtrip san env env' k p e dt w :
  storage_opens env w -> put_ok env = true -> get_ok env' = true ->
  (e = None
   \/ exists q, e = Some q
                /\ gtb (seconds_between (now w) (now w + dt)) q = false) ->
  exists h w1 h' w2,
    saveImage san env k p e w = (Fulfilled (Some h), w1)
    /\ bytes_of w1 h = Some p
    /\ getImage san env' k (set_now (now w1 + dt) w1) = (Fulfilled (Some h'), w2)
    /\ bytes_of w2 h' = Some p.
Proof.
  intros Ho Hp Hg He.
  rewrite (saveImage_stores san env k p e w Ho Hp).
  do 2 eexists. eexists. eexists. split; [reflexivity|]. split.
  { unfold bytes_of. proj. apply lookup_insert_eq. }
  match goal with |- getImage _ _ _ ?w1 = _ /\ _ => set (w' := w1) end.
  assert (Ho' : storage_opens env' w') by (left; reflexivity).
  assert (Hl : images w' !! san k = Some (mkCachedImage (san k) p (now w) e)).
  { unfold w'. proj. apply lookup_insert_eq. }
  assert (Hx : isExpired (now w') (mkCachedImage (san k) p (now w) e) = false).
  { unfold w'. proj. apply not_expired_within, He. }
  rewrite (getImage_hit san env' k w' _ Ho' Hg Hl Hx).
  split; [reflexivity|]. unfold bytes_of. proj. apply lookup_insert_eq.
Qed.

Lemma saveImage_getImage_roundtrip_witness :
  exists h w1 h' w2,
    saveImage sanitize_strip env_ok "k1" png (Some 60%float) world0
      = (Fulfilled (Some h), w1)
    /\ bytes_of w1 h = Some png
    /\ getImage sanitize_strip env_ok "k1" (set_now (now w1 + 59000) w1)
       = (Fulfilled (Some h'), w2)
    /\ bytes_of w2 h' = Some png.
Proof.
  apply (saveImage_getImage_roundtrip sanitize_strip env_ok env_ok "k1" png
           (Some 60%float) 59000 world0).
  - right; reflexivity.
  - reflexivity.
  - reflexivity.
  - right. exists 60%float. split; reflexivity.
Defined.

(** ** The native loader *)

Ltac run_native :=
  unfold loadImageNative, handleExpiredImage, downloadImage,
         handleSuccessfulDownload, await, never, isMounted,
         setImgUri, setHasError, setIsLoading, animateImageLoad,
         getInfoAsync, deleteAsync, downloadAsync;
  run.

Lemma isImageExpired_spec props t metadata :
  isImageExpired props t metadata = true <->
  exists size modificationTime e,
    metadata = FileStat size modificationTime
    /\ Props.expiresIn props = Some e /\ truthy_number e = true
    /\ gtb (number_of_Z t / 1000 - modificationTime)%float e = true.
Proof.
  unfold isImageExpired. destruct metadata as [|size mt].
  - split; [discriminate | intros (? & ? & ? & [=] & _)].
  - destruct (Props.expiresIn props) as [e|].
    + rewrite andb_true_iff. split.
      * intros [H1 H2]. exists size, mt, e. auto.
      * intros (? & ? & ? & [= <- <-] & [= <-] & H1 & H2). auto.
    + split; [discriminate | intros (? & ? & ? & _ & [=] & _)].
Qed.

(** What [loadImageNative] does when the file has to be downloaded. *)
Lemma loadImageNative_refetch san os dir props env held s :
  is_web os = false -> componentIsMounted (comp s) = true ->
  shouldDownloadImage props (now (world s))
    (fileInfo (world s) (fileURI san os dir props)) = true ->
  let r := fst (loadImageNative san os dir props env never held s) in
  let s' := snd (loadImageNative san os dir props env never held s) in
  requests (world s') = Props.uri props :: requests (world s)
  /\ hasError (comp s') = hasError (comp s)
  /\ match download_outcome env (Props.uri props) with
     | DownloadRejects =>
         r = Rejected NetworkError
         /\ (files (world s') !! fileURI san os dir props = None
             \/ files (world s') = files (world s))
     | DownloadResult status body =>
         r = Fulfilled tt
         /\ if status =? 200
            then files (world s') !! fileURI san os dir props
                 = Some (mkFile body
                           (number_of_Z (now (world s) + transfer_ms env) / 1000)%float)
            else files (world s') !! fileURI san os dir props = None
                 /\ imgUri (comp s') = Some (Props.uri props)
     end.
Proof.
  intros Hos Hm Hd. run_native. rewrite Hd. proj.
  destruct (isImageExpired props (now (world s))
              (fileInfo (world s) (fileURI san os dir props))) eqn:He;
    run_native; rewrite Hm; proj;
    destruct (download_outcome env (Props.uri props)) as [|status body]; proj;
    try (rewrite Hm; proj; destruct (status =? 200); run_native);
    repeat split; auto; try apply lookup_insert_eq; try apply lookup_delete_eq.
  all: try (left; apply lookup_delete_eq).
Qed.

Lemma loadImageNative_expired san os dir props env held s f :
  is_web os = false -> componentIsMounted (comp s) = true ->
  files (world s) !! fileURI san os dir props = Some f ->
  isImageExpired props (now (world s))
    (FileStat (Z.of_nat (length (content f))) (mtime f)) = true ->
  let s' := snd (loadImageNative san os dir props env never held s) in
  requests (world s') = Props.uri props :: requests (world s)
  /\ files (world s') !! fileURI san os dir props =
     match download_outcome env (Props.uri props) with
     | DownloadResult status body =>
         if status =? 200
         then Some (mkFile body (number_of_Z (now (world s) + transfer_ms env) / 1000)%float)
         else None
     | DownloadRejects => None
     end.
Proof.
  intros Hos Hm Hf He. run_native. unfold fileInfo. rewrite Hf.
  unfold shouldDownloadImage. rewrite He, orb_true_r. proj. run_native.
  rewrite Hm. proj.
  destruct (download_outcome env (Props.uri props)) as [|status body]; proj.
  - split; [reflexivity|]. apply lookup_delete_eq.
  - rewrite Hm. proj. destruct (status =? 200); run_native.
    + split; [reflexivity|]. apply lookup_insert_eq.
    + split; [reflexivity|]. apply lookup_delete_eq.
Qed.

(** C2, as the code has it.  An entry is expired exactly when its [expiresIn]
    is set, is truthy (a number other than [0], [-0] and [NaN]), and is
    exceeded by the seconds elapsed since it was stored, computed and compared
    in doubles as the code does; so is a file on native, with its
    modification time.  On an expired read the browser [getImage] returns
    [null] and deletes the entry (given an idempotent sanitizer, since
    [deleteImage] sanitizes the key again, and a delete transaction that
    completes); the native loader deletes the file and downloads it again.
    The arithmetic being that of doubles, an entry with [expiresIn = 0.3] read
    300 ms after it was stored is not expired ([300 / 1000] is the double
    [0.3]), and a file modified at second 1 and read at 1100 ms with
    [expiresIn = 0.1] is expired ([1.1 - 1] is a double above [0.1]). *)
Theorem expired_iff_and_expired_read :
  (forall t data,
     isExpired t data = true <->
     exists e, expiresIn data = Some e /\ truthy_number e = true
               /\ gtb (elapsed t data) e = true)
  /\ (forall e,
        truthy_number e = true
        <-> PrimFloat.eqb e 0 = false /\ PrimFloat.is_nan e = false)
  /\ (forall san env k w data,
        san (san k) = san k ->
        storage_opens env w -> get_ok env = true -> delete_ok env = true ->
        images w !! san k = Some data -> isExpired (now w) data = true ->
        exists w',
          getImage san env k w = (Fulfilled None, w')
          /\ images w' = delete (san k) (images w))
  /\ (forall props t metadata,
        isImageExpired props t metadata = true <->
        exists size modificationTime e,
          metadata = FileStat size modificationTime
          /\ Props.expiresIn props = Some e /\ truthy_number e = true
          /\ gtb (number_of_Z t / 1000 - modificationTime)%float e = true)
  /\ (forall san os dir props env held s f,
        is_web os = false -> componentIsMounted (comp s) = true ->
        files (world s) !! fileURI san os dir props = Some f ->
        isImageExpired props (now (world s))
          (FileStat (Z.of_nat (length (content f))) (mtime f)) = true ->
        let s' := snd (loadImageNative san os dir props env never held s) in
        requests (world s') = Props.uri props :: requests (world s)
        /\ files (world s') !! fileURI san os dir props =
           match download_outcome env (Props.uri props) with
           | DownloadResult status body =>
               if status =? 200
               then Some (mkFile body
                            (number_of_Z (now (world s) + transfer_ms env) / 1000)%float)
               else None
           | DownloadRejects => None
           end)
  /\ isExpired 300 (mkCachedImage "k1" png 0 (Some 0x1.3333333333333p-2%float))
     = false
  /\ isImageExpired
       (Props.mk "https://x/img.png" "k1" (Some 0x1.999999999999ap-4%float)
          false None None)
       1100 (FileStat 4 1%float)
     = true.
Proof.
  split; [exact isExpired_spec|].
  split; [exact truthy_number_spec|].
  split; [|split; [exact isImageExpired_spec
                  |split; [exact loadImageNative_expired
                          |split; reflexivity]]].
  intros san env k w data Hs Ho Hg Hd Hl He.
  rewrite (getImage_expired san env k w data Ho Hg Hl He), Hd, Hs.
  eexists. split; reflexivity.
Qed.

Lemma expired_iff_and_expired_read_witness :
  exists w',
    getImage sanitize_strip env_ok "k1" world_expired = (Fulfilled None, w')
    /\ images w' = delete "k1" (images world_expired).
Proof.
  apply (proj1 (proj2 (proj2 expired_iff_and_expired_read))
           sanitize_strip env_ok "k1" world_expired
           (mkCachedImage "k1" png 0 (Some 1%float))).
  - reflexivity.
  - left; reflexivity.
  - reflexivity.
  - reflexivity.
  - reflexivity.
  - reflexivity.
Defined.

(** C2 as stated fails for [expiresIn = 0]: the field is set and five seconds
    have elapsed, more than zero, and yet the entry is not expired:
    [getImage] returns a handle to it and keeps it. *)
Lemma expiresIn_zero_never_expires :
  let data := mkCachedImage "k1" png 0 (Some 0%float) in
  (exists e, expiresIn data = Some e /\ gtb (elapsed 5000 data) e = true)
  /\ isExpired 5000 data = false
  /\ fst (getImage sanitize_strip env_ok "k1" world_zero) = Fulfilled (Some "blob:0")
  /\ images (snd (getImage sanitize_strip env_ok "k1" world_zero)) !! "k1"
     = Some data.
Proof.
  split; [|split; [|split]]; try reflexivity.
  exists 0%float. split; reflexivity.
Qed.

(** ** The browser loader *)

Ltac run_web :=
  unfold loadImageAsync, platformLoad, loadImageWeb, await, never, isMounted,
         setImgUri, setHasError, setIsLoading, animateImageLoad;
  run.

Lemma mounted_update u c :
  componentIsMounted (update u c) = componentIsMounted c.
Proof. destruct u; reflexivity. Qed.

Lemma mounted_animate c : componentIsMounted (animate c) = componentIsMounted c.
Proof. reflexivity. Qed.

Lemma tornDown_update u c : tornDown (update u c) = tornDown c.
Proof. destruct u; reflexivity. Qed.

Lemma hasError_update_other u c :
  (forall b, u <> SetHasError b) -> hasError (update u c) = hasError c.
Proof. destruct u; intros H; try reflexivity. destruct (H b eq_refl). Qed.

Ltac comp_simpl :=
  repeat first
    [ rewrite mounted_update | rewrite mounted_animate | rewrite tornDown_update ].

Lemma blob_url_inj (n m : nat) :
  "blob:" +:+ pretty n = "blob:" +:+ pretty m -> n = m.
Proof. intros H. simpl in H. injection H as H. exact (inj pretty _ _ H). Qed.

Lemma blob_url_truthy (n : nat) :
  truthy_string (Some ("blob:" +:+ pretty n)) = true.
Proof. reflexivity. Qed.

Lemma loadImageWeb_cached san os props env held s h w1 :
  getImage san env (Props.cacheKey props) (world s) = (Fulfilled (Some h), w1) ->
  truthy_string (Some h) = true ->
  componentIsMounted (comp s) = true ->
  loadImageWeb san os props env never held s =
    (Fulfilled tt, mkSys w1 (animate (update (SetImgUri (Some h)) (comp s)))).
Proof.
  intros Hg Ht Hm. run_web. rewrite Hg. proj. rewrite Hm, Ht. reflexivity.
Qed.

Lemma loadImageWeb_downloads san os props env held s w1 r w2 :
  getImage san env (Props.cacheKey props) (world s) = (Fulfilled None, w1) ->
  downloadAndCache san env (Props.uri props) (Props.cacheKey props)
    (Props.expiresIn props) w1 = (Fulfilled r, w2) ->
  componentIsMounted (comp s) = true ->
  loadImageWeb san os props env never held s =
    (Fulfilled tt,
     mkSys w2
       (animate
          (update (SetImgUri (if truthy_string r then r else Some (Props.uri props)))
             (comp s)))).
Proof.
  intros Hg Hd Hm. run_web. rewrite Hg. proj. rewrite Hm. proj.
  cbn [truthy_string andb]. proj. rewrite Hm. proj. rewrite Hd. proj. rewrite Hm.
  destruct (truthy_string r); reflexivity.
Qed.

(** [loadImageAsync], by the outcome of its [try] block. *)
Lemma loadImageAsync_run san os dir props env td held s :
  loadImageAsync san os dir props env td held s =
    match platformLoad san os dir props env td held (loading s) with
    | (Fulfilled a, s2) =>
        (Fulfilled a, mkSys (world s2) (update (SetIsLoading false) (comp s2)))
    | (Rejected e, s2) =>
        (Fulfilled tt,
         mkSys (world s2)
           (update (SetIsLoading false)
              (if componentIsMounted (comp s2)
               then update (SetImgUri (Some (Props.uri props)))
                      (update (SetHasError true) (comp s2))
               else update (SetHasError true) (comp s2))))
    end.
Proof.
  unfold loadImageAsync, setIsLoading, setHasError, setImgUri, isMounted. run.
  fold (loading s).
  destruct (platformLoad san os dir props env td held (loading s))
    as [[a | e] s2]; [reflexivity|].
  proj. rewrite mounted_update.
  destruct (componentIsMounted (comp s2)); reflexivity.
Qed.

Lemma loadImageAsync_web_fulfilled san dir props env held s w' c' :
  loadImageWeb san web props env never held (loading s)
    = (Fulfilled tt, mkSys w' c') ->
  loadImageAsync san web dir props env never held s =
    (Fulfilled tt, mkSys w' (update (SetIsLoading false) c')).
Proof.
  intros H. rewrite loadImageAsync_run. unfold platformLoad. cbn [is_web].
  rewrite H. reflexivity.
Qed.

Lemma getImage_stale san env k w :
  storage_opens env w -> stale_or_absent w (san k) ->
  exists w1,
    getImage san env k w = (Fulfilled None, w1)
    /\ db w1 = true /\ objectURLs w1 = objectURLs w /\ urlCount w1 = urlCount w
    /\ now w1 = now w /\ requests w1 = requests w
    /\ (delete_ok env = true -> get_ok env = true -> san (san k) = san k ->
        images w1 !! san k = None).
Proof.
  intros Ho Hs. unfold stale_or_absent in Hs.
  destruct (images w !! san k) as [data|] eqn:Hl.
  - destruct (get_ok env) eqn:Hg.
    + rewrite (getImage_expired san env k w data Ho Hg Hl Hs).
      eexists; split; [reflexivity|].
      destruct (delete_ok env); proj; repeat split; try discriminate.
      intros _ _ ->. apply lookup_delete_eq.
    + exists (set_db true w). split.
      * unfold getImage. run. rewrite (init_opens _ _ Ho). proj. rewrite Hg.
        reflexivity.
      * repeat split. discriminate.
  - rewrite (getImage_absent san env k w Ho Hl). eexists; split; [reflexivity|].
    repeat split. intros _ _ _. exact Hl.
Qed.

Lemma downloadAndCache_stores san env uri k e w b :
  fetch_outcome env uri = FetchResponse true (Some b) ->
  db w = true -> put_ok env = true ->
  downloadAndCache san env uri k e w =
    (Fulfilled (Some ("blob:" +:+ pretty (urlCount w))),
     mkWorld true
       (<[san k := mkCachedImage (san k) b (now w + transfer_ms env) e]> (images w))
       (<["blob:" +:+ pretty (urlCount w) := b]> (objectURLs w))
       (S (urlCount w)) (now w + transfer_ms env) (uri :: requests w) (files w)).
Proof.
  intros Hf Hd Hp. unfold downloadAndCache, downloadAndCache_try, fetch. run.
  rewrite Hf. proj. unfold response_blob. run.
  rewrite saveImage_stores; [reflexivity | left; exact Hd | exact Hp].
Qed.

Lemma resolve_web_fetch_fails san dir props env held s :
  fetch_fails env (Props.uri props) ->
  san (san (Props.cacheKey props)) = san (Props.cacheKey props) ->
  storage_opens env (world s) ->
  get_ok env = true -> delete_ok env = true ->
  componentIsMounted (comp s) = true ->
  stale_or_absent (world s) (san (Props.cacheKey props)) ->
  exists s',
    loadImageAsync san web dir props env never held s = (Fulfilled tt, s')
    /\ imgUri (comp s') = Some (Props.uri props)
    /\ images (world s') !! san (Props.cacheKey props) = None
    /\ hasError (comp s') = false.
Proof.
  intros Hf Hi Ho Hg Hd Hm Hs.
  destruct (getImage_stale san env _ _ Ho Hs)
    as (w1 & Hget & _ & _ & _ & _ & _ & Hnone).
  specialize (Hnone Hd Hg Hi).
  pose proof (downloadAndCache_fetch_fails san env _ (Props.cacheKey props)
                (Props.expiresIn props) w1 Hf) as Hdl.
  eexists. split.
  { apply loadImageAsync_web_fulfilled.
    apply (loadImageWeb_downloads san web props env held (loading s) w1 None _
             Hget Hdl).
    exact Hm. }
  proj. auto.
Qed.

(** ** The claims about resolving *)

(** C1.  (a) When the entry of the key is present and not expired (and the
    database can be read), the resolve of a mounted instance ends with a
    handle whose bytes are the cached payload, and no request was sent.
    (b) When a first resolve finds no usable entry, fetches and stores the
    image, a second resolve of the same [(uri, key)] made [dt] milliseconds
    later, within [expiresIn] seconds (the elapsed seconds computed as the
    code does), sends no request: one request in all, and both handles refer
    to the fetched bytes.
    (c) On native, when the file of the key is there, not empty and not
    expired, the resolve sends no request and leaves the files and the handle
    (the file path, for an instance that has not fallen back) as they are. *)
Theorem resolve_hit_sends_no_request san dir props :
  (forall env held s data,
     storage_opens env (world s) -> get_ok env = true ->
     componentIsMounted (comp s) = true ->
     images (world s) !! san (Props.cacheKey props) = Some data ->
     isExpired (now (world s)) data = false ->
     exists h s',
       loadImageAsync san web dir props env never held s = (Fulfilled tt, s')
       /\ imgUri (comp s') = Some h
       /\ bytes_of (world s') h = Some (blob data)
       /\ requests (world s') = requests (world s))
  /\ (forall env env' held held' s b dt,
        storage_opens env (world s) -> put_ok env = true ->
        get_ok env' = true ->
        componentIsMounted (comp s) = true ->
        stale_or_absent (world s) (san (Props.cacheKey props)) ->
        fetch_outcome env (Props.uri props) = FetchResponse true (Some b) ->
        (Props.expiresIn props = None
         \/ exists q, Props.expiresIn props = Some q
                      /\ gtb (seconds_between
                                (now (world s) + transfer_ms env)
                                (now (world s) + transfer_ms env + dt)) q
                         = false) ->
        exists h1 s1 h2 s2,
          loadImageAsync san web dir props env never held s = (Fulfilled tt, s1)
          /\ imgUri (comp s1) = Some h1
          /\ loadImageAsync san web dir props env' never held' (later dt s1)
             = (Fulfilled tt, s2)
          /\ imgUri (comp s2) = Some h2
          /\ bytes_of (world s2) h1 = Some b
          /\ bytes_of (world s2) h2 = Some b
          /\ requests (world s2) = Props.uri props :: requests (world s))
  /\ (forall os env held s,
        is_web os = false ->
        componentIsMounted (comp s) = true ->
        shouldDownloadImage props (now (world s))
          (fileInfo (world s) (fileURI san os dir props)) = false ->
        exists s',
          loadImageAsync san os dir props env never held s = (Fulfilled tt, s')
          /\ imgUri (comp s') = imgUri (comp s)
          /\ requests (world s') = requests (world s)
          /\ files (world s') = files (world s)).
Proof.
  split; [|split].
  3: { intros os env held s Hos Hm Hsd. eexists. split.
       { rewrite loadImageAsync_run. unfold platformLoad. rewrite Hos.
         unfold loading. run_native. rewrite Hsd. proj. run_native.
         rewrite !mounted_update, Hm. proj. reflexivity. }
       proj. repeat split. }
  - intros env held s data Ho Hg Hm Hl He.
    pose proof (getImage_hit san env _ _ data Ho Hg Hl He) as Hget.
    do 2 eexists. split.
    { apply loadImageAsync_web_fulfilled.
      apply loadImageWeb_cached; [exact Hget | reflexivity |].
      proj. comp_simpl. exact Hm. }
    proj. split; [reflexivity|]. split; [|reflexivity].
    unfold bytes_of. proj. apply lookup_insert_eq.
  - intros env env' held held' s b dt Ho Hp Hg' Hm Hs Hf He.
    destruct (getImage_stale san env _ _ Ho Hs)
      as (w1 & Hget & Hdb & Hurls & Hcount & Hnow & Hreq & _).
    pose proof (downloadAndCache_stores san env _ (Props.cacheKey props)
                  (Props.expiresIn props) w1 b Hf Hdb Hp) as Hdl.
    set (h1 := "blob:" +:+ pretty (urlCount w1)) in *.
    set (data := mkCachedImage (san (Props.cacheKey props)) b
                   (now w1 + transfer_ms env) (Props.expiresIn props)) in *.
    match type of Hdl with _ = (_, ?w) => set (w2 := w) in * end.
    assert (H1 : loadImageAsync san web dir props env never held s =
                 (Fulfilled tt,
                  mkSys w2 (update (SetIsLoading false)
                    (animate (update (SetImgUri (Some h1))
                      (update (SetHasError false)
                        (update (SetIsLoading true) (comp s)))))))).
    { apply loadImageAsync_web_fulfilled.
      rewrite (loadImageWeb_downloads san web props env held _ w1 (Some h1) w2);
        [reflexivity | exact Hget | exact Hdl |].
      proj. comp_simpl. exact Hm. }
    match type of H1 with _ = (_, ?x) => set (s1 := x) in * end.
    rewrite H1.
    assert (Hx : isExpired (now (world (later dt s1))) data = false).
    { unfold data, later, s1, w2. proj. rewrite Hnow.
      apply not_expired_within, He. }
    assert (Hl : images (world (later dt s1)) !! san (Props.cacheKey props)
                 = Some data).
    { unfold later, s1, w2. proj. apply lookup_insert_eq. }
    assert (Ho' : storage_opens env' (world (later dt s1))) by (left; reflexivity).
    pose proof (getImage_hit san env' _ _ data Ho' Hg' Hl Hx) as Hget'.
    exists h1, s1. do 2 eexists.
    split; [reflexivity|]. split; [reflexivity|]. split.
    { apply loadImageAsync_web_fulfilled.
      apply loadImageWeb_cached; [exact Hget' | reflexivity | exact Hm]. }
    proj. split; [reflexivity|]. unfold bytes_of, later, s1, w2. proj.
    split; [|split].
    + rewrite lookup_insert_ne; [apply lookup_insert_eq|].
      unfold h1. intros H. apply blob_url_inj in H. lia.
    + apply lookup_insert_eq.
    + rewrite Hreq. reflexivity.
Qed.

Lemma resolve_hit_sends_no_request_witness :
  exists h1 s1 h2 s2,
    loadImageAsync sanitize_strip web "file:///cache/" props1 env_ok never
      (None, None) (sys0 web) = (Fulfilled tt, s1)
    /\ imgUri (comp s1) = Some h1
    /\ loadImageAsync sanitize_strip web "file:///cache/" props1 env_ok never
         (None, None) (later 59000 s1) = (Fulfilled tt, s2)
    /\ imgUri (comp s2) = Some h2
    /\ bytes_of (world s2) h1 = Some png
    /\ bytes_of (world s2) h2 = Some png
    /\ requests (world s2) = "https://x/img.png" :: requests (world (sys0 web)).
Proof.
  apply (proj1 (proj2 (resolve_hit_sends_no_request sanitize_strip
                         "file:///cache/" props1))
           env_ok env_ok (None, None) (None, None) (sys0 web) png 59000).
  - right; reflexivity.
  - reflexivity.
  - reflexivity.
  - reflexivity.
  - exact I.
  - reflexivity.
  - right. exists 60%float. split; reflexivity.
Defined.

(** C3.  (a) When the fetch is rejected or answers a non-success status,
    [downloadAndCache] returns [null] and leaves the store, the object URLs
    and the files as they were.  (b) The resolve of a mounted instance that
    finds no usable entry and whose fetch fails ends, without the error flag,
    with the original URI as its handle and no entry under the key (the
    database being readable and an expired entry having been deleted: the
    sanitizer is idempotent, the delete transaction completes).  (c) On
    native, a download that answers a status other than 200 ends likewise:
    the original URI, no file under the key. *)
Theorem failed_fetch_falls_back_to_uri san dir props :
  (forall env k e w,
     fetch_fails env (Props.uri props) ->
     exists w',
       downloadAndCache san env (Props.uri props) k e w = (Fulfilled None, w')
       /\ images w' = images w /\ objectURLs w' = objectURLs w
       /\ files w' = files w)
  /\ (forall env held s,
        fetch_fails env (Props.uri props) ->
        san (san (Props.cacheKey props)) = san (Props.cacheKey props) ->
        storage_opens env (world s) ->
        get_ok env = true -> delete_ok env = true ->
        componentIsMounted (comp s) = true ->
        stale_or_absent (world s) (san (Props.cacheKey props)) ->
        exists s',
          loadImageAsync san web dir props env never held s = (Fulfilled tt, s')
          /\ imgUri (comp s') = Some (Props.uri props)
          /\ images (world s') !! san (Props.cacheKey props) = None
          /\ hasError (comp s') = false)
  /\ (forall os env held s status body,
        is_web os = false ->
        download_outcome env (Props.uri props) = DownloadResult status body ->
        status <> 200 ->
        componentIsMounted (comp s) = true ->
        shouldDownloadImage props (now (world s))
          (fileInfo (world s) (fileURI san os dir props)) = true ->
        let s' := snd (loadImageNative san os dir props env never held s) in
        imgUri (comp s') = Some (Props.uri props)
        /\ files (world s') !! fileURI san os dir props = None).
Proof.
  split; [|split].
  - intros env k e w Hf. rewrite (downloadAndCache_fetch_fails _ _ _ _ _ _ Hf).
    eexists. split; [reflexivity|]. auto.
  - intros env held s. apply resolve_web_fetch_fails.
  - intros os env held s status body Hos Hdl Hst Hm Hsd.
    destruct (loadImageNative_refetch san os dir props env held s Hos Hm Hsd)
      as (_ & _ & H).
    rewrite Hdl in H. destruct H as [_ H].
    apply Z.eqb_neq in Hst. rewrite Hst in H. destruct H; auto.
Qed.

Lemma failed_fetch_falls_back_to_uri_witness :
  exists s',
    loadImageAsync sanitize_strip web "file:///cache/" props1 env_404 never
      (None, None) (sys0 web) = (Fulfilled tt, s')
    /\ imgUri (comp s') = Some "https://x/img.png"
    /\ images (world s') !! "k1" = None
    /\ hasError (comp s') = false.
Proof.
  apply (proj1 (proj2 (failed_fetch_falls_back_to_uri
                         sanitize_strip "file:///cache/" props1))
           env_404 (None, None) (sys0 web)).
  - reflexivity.
  - reflexivity.
  - right; reflexivity.
  - reflexivity.
  - reflexivity.
  - reflexivity.
  - exact I.
Defined.

(** ** The claim about missing and empty files *)

(** C7, as the code has it.  On native, when the file of the key is missing
    or empty, [shouldDownloadImage] answers [true] whatever the expiry setting
    and the time are, and the load of a mounted instance sends the request for
    the image again.  A missing file is never classified as expired and is
    handled by [downloadImage].  A zero-byte file is handled by
    [handleExpiredImage] when [isImageExpired] holds of it, since
    [loadImageNative] tests that first, and by [downloadImage] only
    otherwise.  [shouldDownloadImage] answers [true] for no other file than a
    missing, an empty or an expired one, and a file can be expired without
    being missing or empty. *)
Theorem missing_or_empty_file_is_refetched san os dir props env held s :
  is_web os = false -> componentIsMounted (comp s) = true ->
  fi_exists (fileInfo (world s) (fileURI san os dir props)) = false
  \/ fi_size_is_zero (fileInfo (world s) (fileURI san os dir props)) = true ->
  (forall props' t,
     shouldDownloadImage props' t
       (fileInfo (world s) (fileURI san os dir props)) = true)
  /\ requests (world (snd (loadImageNative san os dir props env never held s)))
     = Props.uri props :: requests (world s)
  /\ (fi_exists (fileInfo (world s) (fileURI san os dir props)) = false ->
      (forall props' t,
         isImageExpired props' t
           (fileInfo (world s) (fileURI san os dir props)) = false)
      /\ loadImageNative san os dir props env never held s
         = downloadImage san os dir props env never held s)
  /\ (fi_size_is_zero (fileInfo (world s) (fileURI san os dir props)) = true ->
      loadImageNative san os dir props env never held s
      = if isImageExpired props (now (world s))
             (fileInfo (world s) (fileURI san os dir props))
        then handleExpiredImage san os dir props env never held s
        else downloadImage san os dir props env never held s)
  /\ (forall props' t metadata,
        shouldDownloadImage props' t metadata = true <->
        fi_exists metadata = false \/ fi_size_is_zero metadata = true
        \/ isImageExpired props' t metadata = true)
  /\ (exists props' t metadata,
        isImageExpired props' t metadata = true
        /\ fi_exists metadata = true /\ fi_size_is_zero metadata = false).
Proof.
  intros Hos Hm Hmiss.
  assert (Hsd : forall props' t,
             shouldDownloadImage props' t
               (fileInfo (world s) (fileURI san os dir props)) = true).
  { intros props' t. unfold shouldDownloadImage.
    destruct Hmiss as [-> | ->]; [reflexivity|].
    rewrite orb_true_r. reflexivity. }
  assert (Hrun : loadImageNative san os dir props env never held s
                 = if isImageExpired props (now (world s))
                        (fileInfo (world s) (fileURI san os dir props))
                   then handleExpiredImage san os dir props env never held s
                   else downloadImage san os dir props env never held s).
  { unfold loadImageNative, await, never, getInfoAsync. run.
    rewrite Hsd. proj.
    destruct s as [w c]. proj.
    destruct (isImageExpired props (now w)
                (fileInfo w (fileURI san os dir props)));
      reflexivity. }
  split; [exact Hsd|]. split; [|split; [|split; [|split]]].
  - apply (loadImageNative_refetch san os dir props env held s Hos Hm (Hsd _ _)).
  - intros Hex.
    assert (He : forall props' t,
               isImageExpired props' t
                 (fileInfo (world s) (fileURI san os dir props)) = false).
    { intros props' t.
      destruct (fileInfo (world s) (fileURI san os dir props));
        [reflexivity | discriminate]. }
    split; [exact He|]. rewrite Hrun, He. reflexivity.
  - intros _. exact Hrun.
  - intros props' t metadata. unfold shouldDownloadImage.
    rewrite !orb_true_iff, negb_true_iff. tauto.
  - exists props1, 100000, (FileStat 4 1%float). repeat split.
Qed.

Lemma missing_or_empty_file_is_refetched_witness :
  requests (world (snd (loadImageNative sanitize_strip ios "file:///cache/" props1
                          env_ok never (None, None)
                          (mkSys world_empty_file (comp (sys0 ios))))))
  = ["https://x/img.png"].
Proof.
  apply (missing_or_empty_file_is_refetched sanitize_strip ios "file:///cache/"
           props1 env_ok (None, None) (mkSys world_empty_file (comp (sys0 ios)))).
  - reflexivity.
  - reflexivity.
  - right. reflexivity.
Defined.

(** C7 as stated fails for a zero-byte file that is older than [expiresIn]:
    [isImageExpired] holds of it, and [loadImageNative], which tests
    [isImageExpired] before it reaches the download of a missing or empty
    file, handles it as expired.  With the network down the two handlings
    leave different files: [handleExpiredImage] has deleted the file,
    [downloadImage] would have left it. *)
Lemma empty_file_can_be_classified_expired :
  let s := mkSys world_old_empty_file (comp (sys0 ios)) in
  let load := loadImageNative sanitize_strip ios "file:///cache/" props1
                env_offline never (None, None) in
  let expired := handleExpiredImage sanitize_strip ios "file:///cache/" props1
                   env_offline never (None, None) in
  let download := downloadImage sanitize_strip ios "file:///cache/" props1
                    env_offline never (None, None) in
  fi_size_is_zero (fileInfo (world s) "file:///cache/k1.png") = true
  /\ isImageExpired props1 (now (world s))
       (fileInfo (world s) "file:///cache/k1.png") = true
  /\ load s = expired s
  /\ files (world (snd (load s))) !! "file:///cache/k1.png" = None
  /\ files (world (snd (download s))) !! "file:///cache/k1.png"
     = Some (mkFile [] 0%float).
Proof.
  repeat split; reflexivity.
Qed.

(** ** The visibility hook *)

(** C9.  When observation is disabled or the platform is not the web, the
    hook's effect sets [isIntersecting] to [true] and installs no observer, so
    no later report of the viewport changes it, and the component's effect
    starts the load whether [lazy] is set or not. *)
Theorem visibility_forced_without_observer enabled os target o :
  enabled = false \/ os <> web ->
  isIntersecting (observerEffect enabled os target o) = true
  /\ observing (observerEffect enabled os target o) = observing o
  /\ (forall visible,
        isIntersecting
          (observerCallback visible
             (observerEffect enabled os target initialObserver)) = true)
  /\ (forall lazy,
        startsLoading lazy (isIntersecting (observerEffect enabled os target o))
        = true).
Proof.
  intros H.
  assert (Hc : negb enabled || negb (is_web os) = true).
  { destruct H as [-> | H]; [reflexivity|].
    destruct os; [congruence | apply orb_true_r ..]. }
  unfold observerEffect. rewrite Hc. cbn [orb isIntersecting observing].
  repeat split. intros lazy. apply orb_true_r.
Qed.

Lemma visibility_forced_without_observer_witness :
  isIntersecting (observerEffect true ios true initialObserver) = true.
Proof.
  apply (visibility_forced_without_observer true ios true initialObserver).
  right. discriminate.
Defined.

(** ** What the loaders leave alone, and when they are rejected *)

Section Combinators.

Context {B : Type} (g : Component -> B).

Lemma keeps_ret {A} (a : A) : keeps g (ret a).
Proof. intros s. reflexivity. Qed.

Lemma keeps_gets {A} (f : Sys -> A) : keeps g (gets f).
Proof. intros s. reflexivity. Qed.

Lemma keeps_bind {A C} (m : Async Sys A) (k : A -> Async Sys C) :
  keeps g m -> (forall a, keeps g (k a)) -> keeps g (bind m k).
Proof.
  intros Hm Hk s. unfold bind. specialize (Hm s).
  destruct (m s) as [[a | e] s1]; cbn [snd] in *; [|exact Hm].
  rewrite Hk. exact Hm.
Qed.

Lemma keeps_in_world {A} (m : Async World A) : keeps g (in_world m).
Proof. intros s. unfold in_world. destruct (m (world s)). reflexivity. Qed.

Lemma keeps_on_comp (h : Component -> Component) :
  (forall c, g (h c) = g c) -> keeps g (on_comp h).
Proof. intros H s. apply H. Qed.

Lemma keeps_when (c : bool) (m : Async Sys unit) :
  keeps g m -> keeps g (when c m).
Proof. intros H. destruct c; [exact H | apply keeps_ret]. Qed.

Lemma keeps_await {A} os td held p (m : Async Sys A) :
  (forall c, g (set_tornDown (set_mounted false c)) = g c) ->
  keeps g m -> keeps g (await os td held p m).
Proof.
  intros Hc Hm s. unfold await. specialize (Hm s).
  destruct (m s) as [r s1]; cbn [snd] in *.
  destruct (td p && negb (tornDown (comp s1))); [|exact Hm].
  unfold cleanup. cbn [comp]. rewrite Hc. exact Hm.
Qed.

End Combinators.

Lemma total_ret {S A} (a : A) : total (@ret S A a).
Proof. intros s. reflexivity. Qed.

Lemma total_gets {S A} (f : S -> A) : total (gets f).
Proof. intros s. reflexivity. Qed.

Lemma total_modify {S} (f : S -> S) : total (modify f).
Proof. intros s. reflexivity. Qed.

Lemma total_bind {S A C} (m : Async S A) (k : A -> Async S C) :
  total m -> (forall a, total (k a)) -> total (bind m k).
Proof.
  intros Hm Hk s. specialize (Hm s). unfold rejects, bind in *.
  destruct (m s) as [[a | e] s1]; cbn [fst] in *; [apply Hk | discriminate].
Qed.

Lemma total_when {S} (c : bool) (m : Async S unit) : total m -> total (when c m).
Proof. intros H. destruct c; [exact H | apply total_ret]. Qed.

Lemma total_in_world {A} (m : Async World A) : total m -> total (in_world m).
Proof.
  intros H s. specialize (H (world s)). unfold rejects, in_world in *.
  destruct (m (world s)) as [[a | e] w]; [reflexivity | discriminate].
Qed.

Lemma total_await {A} os td held p (m : Async Sys A) :
  total m -> total (await os td held p m).
Proof.
  intros H s. specialize (H s). unfold rejects, await in *.
  destruct (m s) as [[a | e] s1]; [reflexivity | discriminate].
Qed.

Lemma total_downloadAndCache san env uri k e :
  total (downloadAndCache san env uri k e).
Proof.
  intros w. unfold rejects.
  destruct (downloadAndCache_fulfils san env uri k e w) as (r & w' & ->).
  reflexivity.
Qed.

Lemma rejects_bind_total {S A C} (m : Async S A) (k : A -> Async S C) s :
  (forall a, total (k a)) -> rejects (bind m k) s = rejects m s.
Proof.
  intros Hk. unfold rejects, bind.
  destruct (m s) as [[a | e] s1]; cbn [fst]; [apply Hk | reflexivity].
Qed.

Ltac keep_hasError :=
  repeat first
    [ apply keeps_ret | apply keeps_gets | apply keeps_in_world
    | apply keeps_on_comp; intros ?; reflexivity
    | apply keeps_await; [intros ?; reflexivity|]
    | apply keeps_when | apply keeps_bind
    | match goal with
      | |- keeps _ (if ?b then _ else _) => destruct b
      | |- forall _, keeps _ _ => intros ?
      end ].

Lemma platformLoad_keeps_hasError san os dir props env td held :
  keeps hasError (platformLoad san os dir props env td held).
Proof.
  unfold platformLoad, loadImageWeb, loadImageNative, handleExpiredImage,
    downloadImage, handleSuccessfulDownload, isMounted, setImgUri,
    animateImageLoad.
  keep_hasError.
Qed.

(** ** The error flag *)

Lemma loadImageWeb_rejects san os props env td held s :
  rejects (loadImageWeb san os props env td held) s
  = rejects (getImage san env (Props.cacheKey props)) (world s).
Proof.
  unfold loadImageWeb. rewrite rejects_bind_total.
  - unfold rejects, await, in_world.
    destruct (getImage san env (Props.cacheKey props) (world s)) as [[r | e] w];
      reflexivity.
  - intros cachedUri. unfold isMounted, setImgUri, animateImageLoad, on_comp.
    repeat first
      [ apply total_ret | apply total_gets | apply total_modify
      | apply total_when | apply total_await | apply total_in_world
      | apply total_downloadAndCache | apply total_bind
      | match goal with
        | |- total (if ?b then _ else _) => destruct b
        | |- forall _, total _ => intros ?
        end ].
Qed.

Lemma loadImageNative_rejects san os dir props env held s :
  is_web os = false -> componentIsMounted (comp s) = true ->
  rejects (loadImageNative san os dir props env never held) s = true
  <-> shouldDownloadImage props (now (world s))
        (fileInfo (world s) (fileURI san os dir props)) = true
      /\ download_outcome env (Props.uri props) = DownloadRejects.
Proof.
  intros Hos Hm.
  destruct (shouldDownloadImage props (now (world s))
              (fileInfo (world s) (fileURI san os dir props))) eqn:Hsd.
  - destruct (loadImageNative_refetch san os dir props env held s Hos Hm Hsd)
      as (_ & _ & H).
    unfold rejects.
    destruct (download_outcome env (Props.uri props)) as [|status body].
    + destruct H as [-> _]. split; auto.
    + destruct H as [-> _]. split; [intros [=] | intros [_ [=]]].
  - unfold rejects. run_native. rewrite Hsd. proj. run_native. rewrite Hm.
    proj. split; [intros [=] | intros [[=] _]].
Qed.

(** C6, as the code has it.  After [loadImageAsync] the error flag is set
    exactly when the platform loader was rejected (the [catch] block sets it),
    and a mounted instance then still has the remote URI as its handle.  The
    browser loader is rejected exactly when [getImage] is; the native loader
    (mounted, not torn down) exactly when the file has to be downloaded and
    the download call is rejected.  A fetch that fails inside
    [downloadAndCache], or a native download that answers a status other than
    200, leaves the flag unset and yields the remote URI.  The other way to
    set the flag is [onError] of the rendered image, while mounted. *)
Theorem hasError_iff_loader_rejected san os dir props env td held s :
  (hasError (comp (snd (loadImageAsync san os dir props env td held s)))
   = rejects (platformLoad san os dir props env td held) (loading s))
  /\ (rejects (platformLoad san os dir props env td held) (loading s) = true ->
      componentIsMounted
        (comp (snd (loadImageAsync san os dir props env td held s))) = true ->
      imgUri (comp (snd (loadImageAsync san os dir props env td held s)))
      = Some (Props.uri props))
  /\ (os = web ->
      rejects (platformLoad san os dir props env td held) (loading s)
      = rejects (getImage san env (Props.cacheKey props)) (world s))
  /\ (is_web os = false -> componentIsMounted (comp s) = true ->
      (rejects (platformLoad san os dir props env never held) (loading s) = true
       <-> shouldDownloadImage props (now (world s))
             (fileInfo (world s) (fileURI san os dir props)) = true
           /\ download_outcome env (Props.uri props) = DownloadRejects))
  /\ (os = web ->
      fetch_fails env (Props.uri props) ->
      san (san (Props.cacheKey props)) = san (Props.cacheKey props) ->
      storage_opens env (world s) ->
      get_ok env = true -> delete_ok env = true ->
      componentIsMounted (comp s) = true ->
      stale_or_absent (world s) (san (Props.cacheKey props)) ->
      hasError (comp (snd (loadImageAsync san os dir props env never held s)))
      = false
      /\ imgUri (comp (snd (loadImageAsync san os dir props env never held s)))
         = Some (Props.uri props))
  /\ (forall status body,
        is_web os = false ->
        download_outcome env (Props.uri props) = DownloadResult status body ->
        status <> 200 ->
        componentIsMounted (comp s) = true ->
        shouldDownloadImage props (now (world s))
          (fileInfo (world s) (fileURI san os dir props)) = true ->
        hasError (comp (snd (loadImageAsync san os dir props env never held s)))
        = false
        /\ imgUri (comp (snd (loadImageAsync san os dir props env never held s)))
           = Some (Props.uri props))
  /\ (componentIsMounted (comp s) = true ->
      hasError (comp (snd (onError s))) = true)
  /\ (componentIsMounted (comp s) = false ->
      hasError (comp (snd (onError s))) = hasError (comp s)).
Proof.
  pose proof (platformLoad_keeps_hasError san os dir props env td held (loading s))
    as Hk.
  split; [|split; [|split; [|split; [|split; [|split; [|split]]]]]].
  - rewrite loadImageAsync_run. unfold rejects.
    destruct (platformLoad san os dir props env td held (loading s))
      as [[a | e] s2]; cbn [fst snd comp] in *.
    + rewrite hasError_update_other by discriminate. exact Hk.
    + rewrite hasError_update_other by discriminate.
      destruct (componentIsMounted (comp s2)); reflexivity.
  - rewrite loadImageAsync_run. unfold rejects.
    destruct (platformLoad san os dir props env td held (loading s))
      as [[a | e] s2]; cbn [fst snd comp]; [discriminate|].
    intros _. destruct (componentIsMounted (comp s2)) eqn:E; [reflexivity|].
    rewrite !mounted_update, E. intros [=].
  - intros ->. unfold platformLoad. cbn [is_web].
    exact (loadImageWeb_rejects san web props env td held (loading s)).
  - intros Hos Hm. unfold platformLoad. rewrite Hos.
    apply (loadImageNative_rejects san os dir props env held (loading s) Hos).
    exact Hm.
  - intros -> Hf Hi Ho Hg Hd Hm Hs.
    destruct (resolve_web_fetch_fails san dir props env held s Hf Hi Ho Hg Hd Hm Hs)
      as (s' & -> & H1 & _ & H2).
    auto.
  - intros status body Hos Hdl Hst Hm Hsd.
    destruct (loadImageNative_refetch san os dir props env held (loading s)
                Hos Hm Hsd) as (_ & Hh & H).
    rewrite Hdl in H. destruct H as [Hr H].
    apply Z.eqb_neq in Hst. rewrite Hst in H. destruct H as [_ Hi].
    rewrite loadImageAsync_run. unfold platformLoad. rewrite Hos.
    destruct (loadImageNative san os dir props env never held (loading s))
      as [[a | e] s2]; cbn [fst snd comp] in *; [|discriminate].
    split; [|exact Hi].
    rewrite hasError_update_other by discriminate. exact Hh.
  - intros Hm. unfold onError, isMounted, setHasError. run. rewrite Hm.
    reflexivity.
  - intros Hm. unfold onError, isMounted, setHasError. run. rewrite Hm.
    reflexivity.
Qed.

Lemma hasError_iff_loader_rejected_witness :
  hasError
    (comp (snd (loadImageAsync sanitize_strip web "file:///cache/" props1
                  env_offline never (None, None) (sys0 web)))) = false
  /\ imgUri
       (comp (snd (loadImageAsync sanitize_strip web "file:///cache/" props1
                     env_offline never (None, None) (sys0 web))))
     = Some "https://x/img.png".
Proof.
  apply (hasError_iff_loader_rejected sanitize_strip web "file:///cache/" props1
           env_offline never (None, None) (sys0 web)).
  - reflexivity.
  - exact I.
  - reflexivity.
  - right; reflexivity.
  - reflexivity.
  - reflexivity.
  - reflexivity.
  - exact I.
Defined.

(** C6 as stated fails: with IndexedDB unavailable, or on native with the
    network down, the resolve sets the error flag although nothing was
    rendered and no [onError] was raised. *)
Lemma cache_failure_sets_hasError :
  hasError
    (comp (snd (loadImageAsync sanitize_strip web "file:///cache/" props1
                  env_no_storage never (None, None) (sys0 web)))) = true
  /\ hasError
       (comp (snd (loadImageAsync sanitize_strip ios "file:///cache/" props1
                     env_offline never (None, None) (sys0 ios)))) = true.
Proof. split; reflexivity. Qed.

(** ** Teardown *)

(** C8 (the code departs from the claim).  Setters that run after the cleanup:
    - torn down while [getImage] is awaited, the [finally] block still calls
      [setIsLoading(false)];
    - if moreover the database cannot be opened, the [catch] block calls
      [setHasError(true)] as well;
    - on native, torn down while the file of a failed download is deleted,
      [handleSuccessfulDownload] goes on to call [setImgUri(uri)].
    Handles that are not released:
    - the cleanup revokes the [imgUri] of the render in which the effect ran,
      [null] for a fresh instance, so the object URL the load obtained later
      is still live after unmount;
    - torn down while [downloadAndCache] is awaited, the object URL made by
      [saveImage] is dropped without being revoked. *)
Theorem teardown_updates_and_leaks :
  lateUpdates
    (comp (snd (effect sanitize_strip web "file:///cache/" props1 env_ok
                  (during AwaitGetImage) true (fresh web))))
  = [SetIsLoading false]
  /\ lateUpdates
       (comp (snd (effect sanitize_strip web "file:///cache/" props1
                     env_no_storage (during AwaitGetImage) true (fresh web))))
     = [SetIsLoading false; SetHasError true]
  /\ lateUpdates
       (comp (snd (effect sanitize_strip ios "file:///cache/" props1 env_404
                     (during AwaitDeleteFailed) true (fresh ios))))
     = [SetIsLoading false; SetImgUri (Some "https://x/img.png")]
  /\ (let s1 := snd (effect sanitize_strip web "file:///cache/" props1 env_ok
                       never true (fresh web)) in
      imgUri (comp s1) = Some "blob:0"
      /\ tornDown (comp (unmount web (fresh web) s1)) = true
      /\ bytes_of (world (unmount web (fresh web) s1)) "blob:0" = Some png)
  /\ (let s1 := snd (effect sanitize_strip web "file:///cache/" props1 env_ok
                       (during AwaitDownloadAndCache) true (fresh web)) in
      tornDown (comp s1) = true /\ imgUri (comp s1) = None
      /\ bytes_of (world s1) "blob:0" = Some png).
Proof. repeat split. Qed.

(** * More properties of the code *)

(** ** [WebImageCache], operation by operation *)

(** X1.  [init] is idempotent and does not remember a failure: after a
    successful [init] the database is open, the store is as it was and every
    later [init] succeeds without changing anything, even if [indexedDB.open]
    would now fail; a failed [init] changes nothing, so a later call opens
    the database again. *)
Theorem init_idempotent_failure_not_sticky env w :
  (forall w1,
     init env w = (Fulfilled tt, w1) ->
     db w1 = true /\ images w1 = images w
     /\ forall env', init env' w1 = (Fulfilled tt, w1))
  /\ (forall e w1,
        init env w = (Rejected e, w1) ->
        w1 = w /\ db w = false
        /\ forall env', open_ok env' = true ->
                        init env' w1 = (Fulfilled tt, set_db true w)).
Proof.
  unfold init. split.
  - intros w1 H. destruct (db w) eqn:Hd.
    + injection H as <-. rewrite Hd. auto.
    + destruct (open_ok env); [|discriminate]. injection H as <-. auto.
  - intros e w1 H. destruct (db w) eqn:Hd; [discriminate|].
    destruct (open_ok env); [discriminate|]. injection H as <- <-.
    rewrite Hd. repeat split. intros env' ->. reflexivity.
Qed.

Lemma init_idempotent_failure_not_sticky_witness :
  db (set_db true world0) = true /\ images (set_db true world0) = images world0
  /\ forall env', init env' (set_db true world0) = (Fulfilled tt, set_db true world0).
Proof.
  apply (proj1 (init_idempotent_failure_not_sticky env_ok world0)).
  reflexivity.
Defined.

Lemma deleteImage_run san env k w :
  storage_opens env w ->
  deleteImage san env k w =
    (Fulfilled tt,
     if delete_ok env
     then set_images (delete (san k) (images w)) (set_db true w)
     else set_db true w).
Proof.
  intros Ho. unfold deleteImage. run. rewrite (init_opens _ _ Ho). proj.
  destruct (delete_ok env); reflexivity.
Qed.

Lemma deleteImage_no_storage san env k w :
  db w = false -> open_ok env = false ->
  deleteImage san env k w = (Rejected IndexedDBOpenFailed, w).
Proof.
  intros H1 H2. unfold deleteImage. run. rewrite (init_fails _ _ H1 H2).
  reflexivity.
Qed.

(** X2.  With a database that opens, [deleteImage] removes the entry under
    the sanitized key and no other; when there is no such entry, or when the
    delete transaction fails, the store is as it was.  When the database
    cannot be opened [deleteImage] is rejected and changes nothing. *)
Theorem deleteImage_removes_only_its_key san env k w :
  (storage_opens env w ->
   images (snd (deleteImage san env k w)) !! san k
   = (if delete_ok env then None else images w !! san k)
   /\ (forall k', k' <> san k ->
         images (snd (deleteImage san env k w)) !! k' = images w !! k')
   /\ (images w !! san k = None ->
       images (snd (deleteImage san env k w)) = images w))
  /\ (db w = false -> open_ok env = false ->
      deleteImage san env k w = (Rejected IndexedDBOpenFailed, w)).
Proof.
  split; [|apply deleteImage_no_storage].
  intros Ho. rewrite (deleteImage_run san env k w Ho).
  destruct (delete_ok env); proj; repeat split; auto.
  - apply lookup_delete_eq.
  - intros k' Hk. apply lookup_delete_ne. congruence.
  - apply delete_id.
Qed.

Lemma deleteImage_removes_only_its_key_witness :
  images (snd (deleteImage sanitize_strip env_ok "k1" world_expired)) !! "k1"
  = None
  /\ (forall k', k' <> "k1" ->
        images (snd (deleteImage sanitize_strip env_ok "k1" world_expired)) !! k'
        = images world_expired !! k')
  /\ (images world_expired !! "k1" = None ->
      images (snd (deleteImage sanitize_strip env_ok "k1" world_expired))
      = images world_expired).
Proof.
  apply (proj1 (deleteImage_removes_only_its_key sanitize_strip env_ok "k1"
                  world_expired)).
  left; reflexivity.
Defined.

(** X3.  The last write wins: after two [saveImage] of the same key, a
    [getImage] made within the second write's [expiresIn] (the elapsed seconds
    computed as the code does) returns a handle to the second payload,
    whatever the first payload and its [expiresIn] were. *)
Theorem saveImage_last_write_wins san env1 env2 env3 k p1 e1 p2 e2 dt w :
  storage_opens env1 w -> put_ok env1 = true -> put_ok env2 = true ->
  get_ok env3 = true ->
  (e2 = None
   \/ exists q, e2 = Some q
                /\ gtb (seconds_between (now w) (now w + dt)) q = false) ->
  exists h1 w1 h2 w2 h3 w3,
    saveImage san env1 k p1 e1 w = (Fulfilled (Some h1), w1)
    /\ saveImage san env2 k p2 e2 w1 = (Fulfilled (Some h2), w2)
    /\ getImage san env3 k (set_now (now w2 + dt) w2) = (Fulfilled (Some h3), w3)
    /\ bytes_of w3 h3 = Some p2.
Proof.
  intros Ho Hp1 Hp2 Hg He.
  pose proof (saveImage_stores san env1 k p1 e1 w Ho Hp1) as H1.
  match type of H1 with _ = (_, ?x) => set (w1 := x) in * end.
  assert (Ho1 : storage_opens env2 w1) by (left; reflexivity).
  pose proof (saveImage_stores san env2 k p2 e2 w1 Ho1 Hp2) as H2.
  match type of H2 with _ = (_, ?x) => set (w2 := x) in * end.
  assert (Ho2 : storage_opens env3 (set_now (now w2 + dt) w2))
    by (left; reflexivity).
  assert (Hl : images (set_now (now w2 + dt) w2) !! san k
               = Some (mkCachedImage (san k) p2 (now w1) e2)).
  { unfold w2. proj. apply lookup_insert_eq. }
  assert (Hx : isExpired (now (set_now (now w2 + dt) w2))
                 (mkCachedImage (san k) p2 (now w1) e2) = false).
  { unfold w2, w1. proj. apply not_expired_within, He. }
  pose proof (getImage_hit san env3 k _ _ Ho2 Hg Hl Hx) as H3.
  do 6 eexists. split; [exact H1|]. split; [exact H2|]. split; [exact H3|].
  unfold bytes_of. proj. apply lookup_insert_eq.
Qed.

Lemma saveImage_last_write_wins_witness :
  exists h1 w1 h2 w2 h3 w3,
    saveImage sanitize_strip env_ok "k1" [] (Some 1%float) world0
      = (Fulfilled (Some h1), w1)
    /\ saveImage sanitize_strip env_ok "k1" png None w1 = (Fulfilled (Some h2), w2)
    /\ getImage sanitize_strip env_ok "k1" (set_now (now w2 + 5000) w2)
       = (Fulfilled (Some h3), w3)
    /\ bytes_of w3 h3 = Some png.
Proof.
  apply (saveImage_last_write_wins sanitize_strip env_ok env_ok env_ok "k1"
           [] (Some 1%float) png None 5000 world0).
  - right; reflexivity.
  - reflexivity.
  - reflexivity.
  - reflexivity.
  - left; reflexivity.
Defined.

(** X4.  A write that fails stores nothing and makes no handle: when the put
    request fails [saveImage] returns [null], and when the database cannot be
    opened it is rejected; in both cases the store and the object URLs are as
    they were. *)
Theorem saveImage_failure_stores_nothing san env k b e w :
  (storage_opens env w -> put_ok env = false ->
   saveImage san env k b e w = (Fulfilled None, set_db true w))
  /\ (db w = false -> open_ok env = false ->
      saveImage san env k b e w = (Rejected IndexedDBOpenFailed, w)).
Proof.
  split; [|apply saveImage_no_storage].
  intros Ho Hp. unfold saveImage. run. rewrite (init_opens _ _ Ho). proj.
  rewrite Hp. reflexivity.
Qed.

Lemma saveImage_failure_stores_nothing_witness :
  saveImage sanitize_strip env_io_error "k1" png None world0
  = (Fulfilled None, set_db true world0).
Proof.
  apply (proj1 (saveImage_failure_stores_nothing sanitize_strip env_io_error
                  "k1" png None world0)).
  - right; reflexivity.
  - reflexivity.
Defined.

(** X5.  Entries are told apart by the sanitized key only.  Two keys with the
    same sanitized form share one entry: what is saved under one is returned
    for the other.  Keys whose sanitized forms differ do not interfere: a
    save under one leaves the entry of the other as it was. *)
Theorem keys_share_an_entry_iff_sanitized_equal san env env' k1 k2 p e dt w :
  storage_opens env w -> put_ok env = true -> get_ok env' = true ->
  (e = None
   \/ exists q, e = Some q
                /\ gtb (seconds_between (now w) (now w + dt)) q = false) ->
  exists h1 w1,
    saveImage san env k1 p e w = (Fulfilled (Some h1), w1)
    /\ (san k1 = san k2 ->
        exists h2 w2,
          getImage san env' k2 (set_now (now w1 + dt) w1)
          = (Fulfilled (Some h2), w2)
          /\ bytes_of w2 h2 = Some p)
    /\ (san k1 <> san k2 -> images w1 !! san k2 = images w !! san k2).
Proof.
  intros Ho Hp Hg He.
  pose proof (saveImage_stores san env k1 p e w Ho Hp) as H1.
  match type of H1 with _ = (_, ?x) => set (w1 := x) in * end.
  do 2 eexists. split; [exact H1|]. split.
  - intros Hk.
    assert (Ho1 : storage_opens env' (set_now (now w1 + dt) w1))
      by (left; reflexivity).
    assert (Hl : images (set_now (now w1 + dt) w1) !! san k2
                 = Some (mkCachedImage (san k1) p (now w) e)).
    { unfold w1. proj. rewrite <- Hk. apply lookup_insert_eq. }
    assert (Hx : isExpired (now (set_now (now w1 + dt) w1))
                   (mkCachedImage (san k1) p (now w) e) = false).
    { unfold w1. proj. apply not_expired_within, He. }
    rewrite (getImage_hit san env' k2 _ _ Ho1 Hg Hl Hx).
    do 2 eexists. split; [reflexivity|]. unfold bytes_of. proj.
    apply lookup_insert_eq.
  - intros Hk. unfold w1. proj. apply lookup_insert_ne. exact Hk.
Qed.

Lemma keys_share_an_entry_iff_sanitized_equal_witness :
  exists h1 w1,
    saveImage sanitize_strip env_ok "a/b" png None world0
      = (Fulfilled (Some h1), w1)
    /\ (sanitize_strip "a/b" = sanitize_strip "ab" ->
        exists h2 w2,
          getImage sanitize_strip env_ok "ab" (set_now (now w1 + 0) w1)
          = (Fulfilled (Some h2), w2)
          /\ bytes_of w2 h2 = Some png)
    /\ (sanitize_strip "a/b" <> sanitize_strip "ab" ->
        images w1 !! sanitize_strip "ab" = images world0 !! sanitize_strip "ab").
Proof.
  apply (keys_share_an_entry_iff_sanitized_equal sanitize_strip env_ok env_ok
           "a/b" "ab" png None 0 world0).
  - right; reflexivity.
  - reflexivity.
  - reflexivity.
  - left; reflexivity.
Defined.

(** ** What the backend leaves alone *)

Section LeavesW.

Context {B : Type} (g : World -> B).

Lemma leavesW_ret {A} (a : A) : leavesW g (ret a).
Proof. intros w. reflexivity. Qed.

Lemma leavesW_throw {A} e : leavesW g (@throw World A e).
Proof. intros w. reflexivity. Qed.

Lemma leavesW_gets {A} (f : World -> A) : leavesW g (gets f).
Proof. intros w. reflexivity. Qed.

Lemma leavesW_modify (f : World -> World) :
  (forall w, g (f w) = g w) -> leavesW g (modify f).
Proof. intros H w. apply H. Qed.

Lemma leavesW_bind {A C} (m : Async World A) (k : A -> Async World C) :
  leavesW g m -> (forall a, leavesW g (k a)) -> leavesW g (bind m k).
Proof.
  intros Hm Hk w. unfold bind. specialize (Hm w).
  destruct (m w) as [[a | e] w1]; cbn [snd] in *; [|exact Hm].
  rewrite Hk. exact Hm.
Qed.

Lemma leavesW_when (c : bool) (m : Async World unit) :
  leavesW g m -> leavesW g (when c m).
Proof. intros H. destruct c; [exact H | apply leavesW_ret]. Qed.

Lemma leavesW_forget {A} (m : Async World A) : leavesW g m -> leavesW g (forget m).
Proof. intros H w. apply H. Qed.

Lemma leavesW_try_catch {A} (m : Async World A) h :
  leavesW g m -> (forall e, leavesW g (h e)) -> leavesW g (try_catch m h).
Proof.
  intros Hm Hh w. unfold try_catch. specialize (Hm w).
  destruct (m w) as [[a | e] w1]; cbn [snd] in *; [exact Hm|].
  rewrite Hh. exact Hm.
Qed.

Lemma leavesW_init env :
  (forall w, g (set_db true w) = g w) -> leavesW g (init env).
Proof.
  intros H w. unfold init. destruct (db w); [reflexivity|].
  destruct (open_ok env); [apply H | reflexivity].
Qed.

Lemma leavesW_createObjectURL b :
  (forall m n w, g (set_objectURLs m n w) = g w) -> leavesW g (createObjectURL b).
Proof. intros H w. apply H. Qed.

End LeavesW.

Ltac leave_world :=
  repeat
    match goal with
    | |- leavesW _ (ret _) => apply leavesW_ret
    | |- leavesW _ (throw _) => apply leavesW_throw
    | |- leavesW _ (gets _) => apply leavesW_gets
    | |- leavesW _ (modify _) => apply leavesW_modify; intros ?; reflexivity
    | |- leavesW _ (init _) => apply leavesW_init; intros ?; reflexivity
    | |- leavesW _ (createObjectURL _) =>
        apply leavesW_createObjectURL; intros ? ? ?; reflexivity
    | |- leavesW _ (when _ _) => apply leavesW_when
    | |- leavesW _ (forget _) => apply leavesW_forget
    | |- leavesW _ (bind _ _) => apply leavesW_bind
    | |- leavesW _ (if ?b then _ else _) => destruct b
    | |- leavesW _ (match ?x with Some _ => _ | None => _ end) => destruct x
    | |- forall _, leavesW _ _ => intros ?
    | |- leavesW _ (let _ := _ in _) => cbv zeta
    end.

Lemma getImage_leaves_requests san env k : leavesW requests (getImage san env k).
Proof. unfold getImage, deleteImage. leave_world. Qed.

Lemma getImage_leaves_files san env k : leavesW files (getImage san env k).
Proof. unfold getImage, deleteImage. leave_world. Qed.

Lemma saveImage_leaves_requests san env k b e :
  leavesW requests (saveImage san env k b e).
Proof. unfold saveImage. leave_world. Qed.

Lemma saveImage_leaves_files san env k b e :
  leavesW files (saveImage san env k b e).
Proof. unfold saveImage. leave_world. Qed.

Lemma deleteImage_leaves_requests san env k :
  leavesW requests (deleteImage san env k).
Proof. unfold deleteImage. leave_world. Qed.

Lemma deleteImage_leaves_files san env k : leavesW files (deleteImage san env k).
Proof. unfold deleteImage. leave_world. Qed.

Lemma downloadAndCache_requests san env uri k e w :
  requests (snd (downloadAndCache san env uri k e w)) = uri :: requests w.
Proof.
  unfold downloadAndCache, try_catch, downloadAndCache_try, bind, fetch.
  destruct (fetch_outcome env uri) as [|ok body]; [reflexivity|].
  destruct ok; cbn [fst snd negb]; [|reflexivity].
  destruct body as [b|]; cbn [response_blob]; unfold ret, throw; [|reflexivity].
  match goal with |- context [saveImage ?s ?en ?kk ?bb ?ee ?ww] =>
    pose proof (saveImage_leaves_requests s en kk bb ee ww) as H;
    destruct (saveImage s en kk bb ee ww) as [[r | err] w1] end.
  - exact H.
  - exact H.
Qed.

Lemma downloadAndCache_leaves_files san env uri k e :
  leavesW files (downloadAndCache san env uri k e).
Proof.
  unfold downloadAndCache, downloadAndCache_try.
  apply leavesW_try_catch; [|intros ?; apply leavesW_ret].
  apply leavesW_bind.
  - intros w. unfold fetch. destruct (fetch_outcome env uri); reflexivity.
  - intros [ok body]. cbn [fst snd]. destruct ok; cbn [negb];
      [|apply leavesW_ret].
    apply leavesW_bind; [destruct body; [apply leavesW_ret | apply leavesW_throw]|].
    intros b. apply saveImage_leaves_files.
Qed.

(** X6.  The storage operations stay off the network and off the file
    system: [getImage], [saveImage] and [deleteImage] send no request and
    touch no file.  [downloadAndCache] touches no file either and sends
    exactly one request, for the URI it was given, whatever the outcome. *)
Theorem backend_network_and_file_use san env uri k b e w :
  requests (snd (getImage san env k w)) = requests w
  /\ files (snd (getImage san env k w)) = files w
  /\ requests (snd (saveImage san env k b e w)) = requests w
  /\ files (snd (saveImage san env k b e w)) = files w
  /\ requests (snd (deleteImage san env k w)) = requests w
  /\ files (snd (deleteImage san env k w)) = files w
  /\ requests (snd (downloadAndCache san env uri k e w)) = uri :: requests w
  /\ files (snd (downloadAndCache san env uri k e w)) = files w.
Proof.
  repeat split.
  - apply getImage_leaves_requests.
  - apply getImage_leaves_files.
  - apply saveImage_leaves_requests.
  - apply saveImage_leaves_files.
  - apply deleteImage_leaves_requests.
  - apply deleteImage_leaves_files.
  - apply downloadAndCache_requests.
  - apply downloadAndCache_leaves_files.
Qed.

(** X8.  Every hit makes a new object URL and none is ever revoked by the
    cache: two [getImage] of the same key in a row return two different
    handles, both live afterwards and both referring to the cached bytes, so
    each of them is the caller's to revoke. *)
Theorem every_hit_makes_a_new_object_url san env env' k w data :
  storage_opens env w -> get_ok env = true -> get_ok env' = true ->
  images w !! san k = Some data -> isExpired (now w) data = false ->
  exists h1 w1 h2 w2,
    getImage san env k w = (Fulfilled (Some h1), w1)
    /\ getImage san env' k w1 = (Fulfilled (Some h2), w2)
    /\ h1 <> h2
    /\ bytes_of w2 h1 = Some (blob data)
    /\ bytes_of w2 h2 = Some (blob data)
    /\ urlCount w2 = S (S (urlCount w)).
Proof.
  intros Ho Hg Hg' Hl He.
  pose proof (getImage_hit san env k w data Ho Hg Hl He) as H1.
  match type of H1 with _ = (_, ?x) => set (w1 := x) in * end.
  assert (Ho1 : storage_opens env' w1) by (left; reflexivity).
  pose proof (getImage_hit san env' k w1 data Ho1 Hg' Hl He) as H2.
  do 4 eexists. split; [exact H1|]. split; [exact H2|].
  unfold bytes_of, w1. proj.
  assert (Hne : "blob:" +:+ pretty (urlCount w) <> "blob:" +:+ pretty (S (urlCount w))).
  { intros H. apply blob_url_inj in H. lia. }
  repeat split.
  - exact Hne.
  - rewrite lookup_insert_ne by congruence. apply lookup_insert_eq.
  - apply lookup_insert_eq.
Qed.

Lemma every_hit_makes_a_new_object_url_witness :
  exists h1 w1 h2 w2,
    getImage sanitize_strip env_ok "k1" world_cached = (Fulfilled (Some h1), w1)
    /\ getImage sanitize_strip env_ok "k1" w1 = (Fulfilled (Some h2), w2)
    /\ h1 <> h2
    /\ bytes_of w2 h1 = Some png
    /\ bytes_of w2 h2 = Some png
    /\ urlCount w2 = S (S (urlCount world_cached)).
Proof.
  apply (every_hit_makes_a_new_object_url sanitize_strip env_ok env_ok "k1"
           world_cached (mkCachedImage "k1" png 0 None)).
  - left; reflexivity.
  - reflexivity.
  - reflexivity.
  - reflexivity.
  - reflexivity.
Defined.

Lemma saveImage_cases san env k b e w :
  (storage_opens env w /\ put_ok env = true
   /\ saveImage san env k b e w =
        (Fulfilled (Some ("blob:" +:+ pretty (urlCount w))),
         set_objectURLs (<["blob:" +:+ pretty (urlCount w) := b]> (objectURLs w))
           (S (urlCount w))
           (set_images (<[san k := mkCachedImage (san k) b (now w) e]> (images w))
              (set_db true w))))
  \/ (~ (storage_opens env w /\ put_ok env = true)
      /\ (saveImage san env k b e w = (Fulfilled None, set_db true w)
          \/ saveImage san env k b e w = (Rejected IndexedDBOpenFailed, w))).
Proof.
  destruct (storage_opens_dec env w) as [Ho | [Hd Hop]].
  - destruct (put_ok env) eqn:Hp.
    + left. split; [exact Ho|]. split; [reflexivity|].
      apply saveImage_stores; assumption.
    + right. split; [intros [_ [=]]|]. left.
      unfold saveImage. run. rewrite (init_opens _ _ Ho). proj. rewrite Hp.
      reflexivity.
  - right. split.
    + intros [[H | H] _]; congruence.
    + right. apply saveImage_no_storage; assumption.
Qed.

(** X9.  [downloadAndCache] returns a handle exactly when the response is ok,
    its body can be read, the database opens and the put succeeds; the entry
    then holds the body, stamped with the time the transfer ended, and the
    handle refers to the body.  In every other case it returns [null] and
    the store and the object URLs are as they were. *)
Theorem downloadAndCache_handle_iff_stored san env uri k e w :
  ((exists h, fst (downloadAndCache san env uri k e w) = Fulfilled (Some h))
   <-> (exists b, fetch_outcome env uri = FetchResponse true (Some b))
       /\ storage_opens env w /\ put_ok env = true)
  /\ (forall h,
        fst (downloadAndCache san env uri k e w) = Fulfilled (Some h) ->
        exists b,
          fetch_outcome env uri = FetchResponse true (Some b)
          /\ images (snd (downloadAndCache san env uri k e w)) !! san k
             = Some (mkCachedImage (san k) b (now w + transfer_ms env) e)
          /\ bytes_of (snd (downloadAndCache san env uri k e w)) h = Some b)
  /\ (fst (downloadAndCache san env uri k e w) = Fulfilled None ->
      images (snd (downloadAndCache san env uri k e w)) = images w
      /\ objectURLs (snd (downloadAndCache san env uri k e w)) = objectURLs w).
Proof.
  unfold downloadAndCache, try_catch, downloadAndCache_try, fetch, bind.
  destruct (fetch_outcome env uri) as [|ok body] eqn:Hf.
  { cbn [fst snd ret]. split; [|split].
    - split; [intros [h [=]] | intros [[b [=]] _]].
    - intros h [=].
    - intros _. split; reflexivity. }
  destruct ok; cbn [fst snd negb].
  2: { unfold ret. cbn [fst snd]. split; [|split].
       - split; [intros [h [=]] | intros [[b [=]] _]].
       - intros h [=].
       - intros _. split; reflexivity. }
  destruct body as [b|]; cbn [response_blob]; unfold ret, throw.
  2: { cbn [fst snd]. split; [|split].
       - split; [intros [h [=]] | intros [[b [=]] _]].
       - intros h [=].
       - intros _. split; reflexivity. }
  set (w' := set_now (now w + transfer_ms env) (set_requests (uri :: requests w) w)).
  destruct (saveImage_cases san env k b e w') as [(Ho & Hp & ->) | (Hn & [-> | ->])];
    cbn [fst snd].
  - split; [|split].
    + split; [intros _ | intros _; eauto].
      split; [eauto|]. split; [exact Ho | exact Hp].
    + intros h [= <-]. exists b. split; [reflexivity|]. unfold bytes_of, w'. proj.
      split; apply lookup_insert_eq.
    + intros [=].
  - split; [|split].
    + split; [intros [h [=]]|]. intros (_ & Ho & Hp). destruct Hn.
      split; [exact Ho | exact Hp].
    + intros h [=].
    + intros _. split; reflexivity.
  - split; [|split].
    + split; [intros [h [=]]|]. intros (_ & Ho & Hp). destruct Hn.
      split; [exact Ho | exact Hp].
    + intros h [=].
    + intros _. split; reflexivity.
Qed.

Lemma downloadAndCache_handle_iff_stored_witness :
  exists b,
    fetch_outcome env_ok "https://x/img.png" = FetchResponse true (Some b)
    /\ images (snd (downloadAndCache sanitize_strip env_ok "https://x/img.png"
                      "k1" None world0)) !! sanitize_strip "k1"
       = Some (mkCachedImage (sanitize_strip "k1") b
                 (now world0 + transfer_ms env_ok) None)
    /\ bytes_of (snd (downloadAndCache sanitize_strip env_ok "https://x/img.png"
                        "k1" None world0)) "blob:0" = Some b.
Proof.
  apply (proj1 (proj2 (downloadAndCache_handle_iff_stored sanitize_strip env_ok
                         "https://x/img.png" "k1" None world0)) "blob:0").
  reflexivity.
Defined.

(** ** The keys of the store *)

Lemma wellKeyed_delete san w k m :
  wellKeyed san w -> images (m : World) = delete k (images w) -> wellKeyed san m.
Proof.
  intros H Hm k' d. rewrite Hm. intros Hl.
  apply lookup_delete_Some in Hl as [_ Hl]. exact (H _ _ Hl).
Qed.

Lemma wellKeyed_insert san w raw b t e m :
  wellKeyed san w ->
  images (m : World) = <[san raw := mkCachedImage (san raw) b t e]> (images w) ->
  wellKeyed san m.
Proof.
  intros H Hm k' d. rewrite Hm. intros Hl.
  apply lookup_insert_Some in Hl as [[<- <-] | [_ Hl]].
  - split; [reflexivity | eauto].
  - exact (H _ _ Hl).
Qed.

Lemma wellKeyed_same san w m :
  wellKeyed san w -> images (m : World) = images w -> wellKeyed san m.
Proof. intros H Hm k' d. rewrite Hm. apply H. Qed.

Lemma getImage_images san env k w :
  images (snd (getImage san env k w)) = images w
  \/ images (snd (getImage san env k w)) = delete (san (san k)) (images w).
Proof.
  destruct (storage_opens_dec env w) as [Ho | [Hd Hop]].
  - destruct (get_ok env) eqn:Hg.
    + destruct (images w !! san k) as [data|] eqn:Hl.
      * destruct (isExpired (now w) data) eqn:He.
        -- rewrite (getImage_expired san env k w data Ho Hg Hl He).
           destruct (delete_ok env); auto.
        -- rewrite (getImage_hit san env k w data Ho Hg Hl He). auto.
      * rewrite (getImage_absent san env k w Ho Hl). auto.
    + left. unfold getImage. run. rewrite (init_opens _ _ Ho). proj.
      rewrite Hg. reflexivity.
  - rewrite (getImage_no_storage san env k w Hd Hop). auto.
Qed.

(** X10.  Raw keys never reach the store: if every entry sits under the key
    it carries and that key is the sanitized form of some key, this is still
    so after [getImage], [saveImage], [deleteImage] and [downloadAndCache],
    whatever they were given and whatever the environment does. *)
Theorem store_keys_stay_sanitized san env uri k b e w :
  wellKeyed san w ->
  wellKeyed san (snd (getImage san env k w))
  /\ wellKeyed san (snd (saveImage san env k b e w))
  /\ wellKeyed san (snd (deleteImage san env k w))
  /\ wellKeyed san (snd (downloadAndCache san env uri k e w)).
Proof.
  intros H. split; [|split; [|split]].
  - destruct (getImage_images san env k w) as [Hi | Hi].
    + exact (wellKeyed_same _ _ _ H Hi).
    + exact (wellKeyed_delete _ _ _ _ H Hi).
  - destruct (saveImage_cases san env k b e w) as [(_ & _ & ->) | (_ & [-> | ->])].
    + eapply wellKeyed_insert; [exact H | reflexivity].
    + eapply wellKeyed_same; [exact H | reflexivity].
    + exact H.
  - destruct (storage_opens_dec env w) as [Ho | [Hd Hop]].
    + rewrite (deleteImage_run san env k w Ho). destruct (delete_ok env).
      * eapply wellKeyed_delete; [exact H | reflexivity].
      * eapply wellKeyed_same; [exact H | reflexivity].
    + rewrite (deleteImage_no_storage san env k w Hd Hop). exact H.
  - unfold downloadAndCache, try_catch, downloadAndCache_try, fetch, bind.
    set (w' := set_now (now w + transfer_ms env)
                 (set_requests (uri :: requests w) w)).
    assert (H' : wellKeyed san w') by exact H.
    destruct (fetch_outcome env uri) as [|ok body]; [exact H'|].
    destruct ok; cbn [fst snd negb]; [|exact H'].
    destruct body as [b'|]; cbn [response_blob]; unfold ret, throw; [|exact H'].
    destruct (saveImage_cases san env k b' e w')
      as [(_ & _ & ->) | (_ & [-> | ->])]; cbn [snd].
    + eapply wellKeyed_insert; [exact H' | reflexivity].
    + eapply wellKeyed_same; [exact H' | reflexivity].
    + exact H'.
Qed.

Lemma store_keys_stay_sanitized_witness :
  wellKeyed sanitize_strip
    (snd (saveImage sanitize_strip env_ok "a/b" png None world0)).
Proof.
  apply (store_keys_stay_sanitized sanitize_strip env_ok "https://x/img.png"
           "a/b" png None world0).
  intros k data H. vm_compute in H. discriminate H.
Defined.

(** ** What the component leaves alone *)

Section Leaves.

Context {B : Type} (g : World -> B).

Lemma leaves_ret {A} (a : A) : leaves g (ret a).
Proof. intros s. reflexivity. Qed.

Lemma leaves_gets {A} (f : Sys -> A) : leaves g (gets f).
Proof. intros s. reflexivity. Qed.

Lemma leaves_on_comp (h : Component -> Component) : leaves g (on_comp h).
Proof. intros s. reflexivity. Qed.

Lemma leaves_bind {A C} (m : Async Sys A) (k : A -> Async Sys C) :
  leaves g m -> (forall a, leaves g (k a)) -> leaves g (bind m k).
Proof.
  intros Hm Hk s. unfold bind. specialize (Hm s).
  destruct (m s) as [[a | e] s1]; cbn [snd] in *; [|exact Hm].
  rewrite Hk. exact Hm.
Qed.

Lemma leaves_when (c : bool) (m : Async Sys unit) :
  leaves g m -> leaves g (when c m).
Proof. intros H. destruct c; [exact H | apply leaves_ret]. Qed.

Lemma leaves_forget {A} (m : Async Sys A) : leaves g m -> leaves g (forget m).
Proof. intros H s. apply H. Qed.

Lemma leaves_in_world {A} (m : Async World A) :
  leavesW g m -> leaves g (in_world m).
Proof.
  intros H s. specialize (H (world s)). unfold in_world.
  destruct (m (world s)). exact H.
Qed.

Lemma leaves_try_catch {A} (m : Async Sys A) h :
  leaves g m -> (forall e, leaves g (h e)) -> leaves g (try_catch m h).
Proof.
  intros Hm Hh s. unfold try_catch. specialize (Hm s).
  destruct (m s) as [[a | e] s1]; cbn [snd] in *; [exact Hm|].
  rewrite Hh. exact Hm.
Qed.

Lemma leaves_try_finally {A} (m : Async Sys A) f :
  leaves g m -> (forall s, world (f s) = world s) -> leaves g (try_finally m f).
Proof.
  intros Hm Hf s. unfold try_finally. specialize (Hm s).
  destruct (m s) as [r s1]; cbn [snd] in *. rewrite Hf. exact Hm.
Qed.

Lemma leaves_await {A} os td held p (m : Async Sys A) :
  (forall u w, g (revokeObjectURL u w) = g w) \/ is_web os = false ->
  leaves g m -> leaves g (await os td held p m).
Proof.
  intros Hc Hm s. unfold await. specialize (Hm s).
  destruct (m s) as [r s1]; cbn [snd] in *.
  destruct (td p && negb (tornDown (comp s1))); [|exact Hm].
  unfold cleanup. cbn [world]. destruct Hc as [Hc | ->]; [|exact Hm].
  cbn [is_web]. destruct (is_web os); [|exact Hm].
  destruct (startsWith "blob:" (fst held)), (startsWith "blob:" (snd held));
    rewrite ?Hc; exact Hm.
Qed.

End Leaves.

Lemma getInfoAsync_leaves {B} (g : World -> B) path : leavesW g (getInfoAsync path).
Proof. intros w. reflexivity. Qed.

Lemma getImage_leaves_now san env k : leavesW now (getImage san env k).
Proof. unfold getImage, deleteImage. leave_world. Qed.

Ltac leave_sys :=
  repeat
    match goal with
    | |- leaves _ (ret _) => apply leaves_ret
    | |- leaves _ (gets _) => apply leaves_gets
    | |- leaves _ (on_comp _) => apply leaves_on_comp
    | |- leaves _ (when _ _) => apply leaves_when
    | |- leaves _ (forget _) => apply leaves_forget
    | |- leaves _ (bind _ _) => apply leaves_bind
    | |- leaves _ (await _ _ _ _ _) =>
        apply leaves_await; [first [left; intros ? ?; reflexivity | right; assumption]|]
    | |- leaves _ (in_world _) => apply leaves_in_world
    | |- leaves _ (if ?b then _ else _) => destruct b
    | |- forall _, leaves _ _ => intros ?
    end.

Ltac unfold_loaders :=
  unfold loadImageAsync, platformLoad, loadImageWeb, loadImageNative,
    handleExpiredImage, downloadImage, handleSuccessfulDownload,
    loadPreviewImage, isMounted, setImgUri, setPreviewUri, setHasError,
    setIsLoading, animateImageLoad.

(** ** Requests *)

Section AtMostOne.

Variable uri : string.

Lemma amo_leaves {A} (m : Async Sys A) :
  leaves requests m -> sends_at_most_one uri m.
Proof. intros H s. left. apply H. Qed.

Lemma amo_bind_l {A C} (m : Async Sys A) (k : A -> Async Sys C) :
  leaves requests m -> (forall a, sends_at_most_one uri (k a)) ->
  sends_at_most_one uri (bind m k).
Proof.
  intros Hm Hk s. unfold bind. specialize (Hm s).
  destruct (m s) as [[a | e] s1]; cbn [snd] in *; [|left; exact Hm].
  rewrite <- Hm. apply Hk.
Qed.

Lemma amo_bind_r {A C} (m : Async Sys A) (k : A -> Async Sys C) :
  sends_at_most_one uri m -> (forall a, leaves requests (k a)) ->
  sends_at_most_one uri (bind m k).
Proof.
  intros Hm Hk s. unfold bind. specialize (Hm s).
  destruct (m s) as [[a | e] s1]; cbn [snd] in *; [|exact Hm].
  rewrite Hk. exact Hm.
Qed.

Lemma amo_when (c : bool) (m : Async Sys unit) :
  sends_at_most_one uri m -> sends_at_most_one uri (when c m).
Proof. intros H. destruct c; [exact H | apply amo_leaves, leaves_ret]. Qed.

Lemma amo_await {A} os td held p (m : Async Sys A) :
  sends_at_most_one uri m -> sends_at_most_one uri (await os td held p m).
Proof.
  intros Hm s. specialize (Hm s).
  assert (H : requests (world (snd (await os td held p m s)))
              = requests (world (snd (m s)))).
  { unfold await. destruct (m s) as [r s1]; cbn [snd].
    destruct (td p && negb (tornDown (comp s1))); [|reflexivity].
    unfold cleanup. cbn [world]. destruct (is_web os); [|reflexivity].
    destruct (startsWith "blob:" (fst held)), (startsWith "blob:" (snd held));
      reflexivity. }
  rewrite H. exact Hm.
Qed.

Lemma amo_downloadAndCache san env k e :
  sends_at_most_one uri (in_world (downloadAndCache san env uri k e)).
Proof.
  intros s. right. unfold in_world.
  pose proof (downloadAndCache_requests san env uri k e (world s)) as H.
  destruct (downloadAndCache san env uri k e (world s)). exact H.
Qed.

Lemma amo_downloadAsync env path :
  sends_at_most_one uri (in_world (downloadAsync env uri path)).
Proof.
  intros s. right. unfold in_world, downloadAsync.
  destruct (download_outcome env uri); reflexivity.
Qed.

End AtMostOne.

Lemma deleteAsync_leaves_requests path : leavesW requests (deleteAsync path).
Proof. intros w. reflexivity. Qed.

Lemma loadImageWeb_at_most_one san os props env td held :
  sends_at_most_one (Props.uri props) (loadImageWeb san os props env td held).
Proof.
  unfold loadImageWeb, isMounted, setImgUri, animateImageLoad.
  apply amo_bind_l.
  { leave_sys. apply getImage_leaves_requests. }
  intros cachedUri. apply amo_bind_l; [leave_sys|]. intros mounted.
  destruct (truthy_string cachedUri && mounted); [apply amo_leaves; leave_sys|].
  apply amo_bind_l; [leave_sys|]. intros mounted'. apply amo_when.
  apply amo_bind_r.
  - apply amo_await, amo_downloadAndCache.
  - intros newUri. leave_sys.
Qed.

Lemma downloadImage_at_most_one san os dir props env td held :
  sends_at_most_one (Props.uri props) (downloadImage san os dir props env td held).
Proof.
  unfold downloadImage, handleSuccessfulDownload, isMounted, setImgUri,
    animateImageLoad.
  apply amo_bind_l; [leave_sys|]. intros mounted.
  destruct (negb mounted); [apply amo_leaves; leave_sys|].
  apply amo_bind_r.
  - apply amo_await, amo_downloadAsync.
  - intros response. leave_sys. apply deleteAsync_leaves_requests.
Qed.

Lemma loadImageNative_at_most_one san os dir props env td held :
  sends_at_most_one (Props.uri props)
    (loadImageNative san os dir props env td held).
Proof.
  unfold loadImageNative, handleExpiredImage, isMounted, animateImageLoad.
  apply amo_bind_l.
  { leave_sys. apply getInfoAsync_leaves. }
  intros metadata. apply amo_bind_l; [leave_sys|]. intros t.
  destruct (negb (shouldDownloadImage props t metadata));
    [apply amo_leaves; leave_sys|].
  destruct (isImageExpired props t metadata).
  - apply amo_bind_l.
    { leave_sys. apply deleteAsync_leaves_requests. }
    intros _. apply downloadImage_at_most_one.
  - apply downloadImage_at_most_one.
Qed.

(** X11.  A resolve sends at most one request, and only for the image's own
    URI: whatever the platform, the environment, the state and the moment of
    a teardown, after [loadImageAsync] the request log is as it was or has
    one more entry, [props.uri]. *)
Theorem resolve_sends_at_most_one_request san os dir props env td held s :
  requests (world (snd (loadImageAsync san os dir props env td held s)))
  = requests (world s)
  \/ requests (world (snd (loadImageAsync san os dir props env td held s)))
     = Props.uri props :: requests (world s).
Proof.
  rewrite loadImageAsync_run.
  assert (H : sends_at_most_one (Props.uri props)
                (platformLoad san os dir props env td held)).
  { unfold platformLoad. destruct (is_web os).
    - apply loadImageWeb_at_most_one.
    - apply loadImageNative_at_most_one. }
  specialize (H (loading s)).
  destruct (platformLoad san os dir props env td held (loading s))
    as [[a | e] s2]; exact H.
Qed.

(** X12.  [loadImageAsync] is never rejected, so calling it without awaiting
    it (as the effect does) leaves no unhandled rejection, and it always ends
    with [isLoading] false: whatever the platform, the environment, the state
    and the moment of a teardown. *)
Theorem loadImageAsync_settles san os dir props env td held s :
  rejects (loadImageAsync san os dir props env td held) s = false
  /\ isLoading (comp (snd (loadImageAsync san os dir props env td held s)))
     = false.
Proof.
  unfold rejects. rewrite loadImageAsync_run.
  destruct (platformLoad san os dir props env td held (loading s))
    as [[a | e] s2]; split; reflexivity.
Qed.

Lemma keeps_forget {A B} (g : Component -> B) (m : Async Sys A) :
  keeps g m -> keeps g (forget m).
Proof. intros H s. apply H. Qed.

Lemma loadImageAsync_leaves {B} (g : World -> B) san os dir props env td held :
  leaves g (platformLoad san os dir props env td held) ->
  leaves g (loadImageAsync san os dir props env td held).
Proof.
  intros H s. rewrite loadImageAsync_run. specialize (H (loading s)).
  destruct (platformLoad san os dir props env td held (loading s))
    as [[a | e] s2]; exact H.
Qed.

Lemma downloadAsync_leaves {B} (g : World -> B) env uri path :
  (forall t w, g (set_now t w) = g w) ->
  (forall l w, g (set_requests l w) = g w) ->
  (forall m w, g (set_files m w) = g w) ->
  leavesW g (downloadAsync env uri path).
Proof.
  intros H1 H2 H3 w. unfold downloadAsync.
  destruct (download_outcome env uri); cbn [snd]; rewrite ?H3, H1, H2; reflexivity.
Qed.

Lemma deleteAsync_leaves {B} (g : World -> B) path :
  (forall m w, g (set_files m w) = g w) -> leavesW g (deleteAsync path).
Proof. intros H w. apply H. Qed.

Lemma loadImageWeb_leaves_files san os props env td held :
  leaves files (loadImageWeb san os props env td held).
Proof.
  unfold_loaders. leave_sys;
    first [apply getImage_leaves_files | apply downloadAndCache_leaves_files].
Qed.

Lemma loadImageNative_leaves_browser {B} (g : World -> B) san os dir props env td held :
  is_web os = false ->
  (forall t w, g (set_now t w) = g w) ->
  (forall l w, g (set_requests l w) = g w) ->
  (forall m w, g (set_files m w) = g w) ->
  leaves g (loadImageNative san os dir props env td held).
Proof.
  intros Hos H1 H2 H3. unfold_loaders. leave_sys;
    first [ apply getInfoAsync_leaves
          | apply deleteAsync_leaves; exact H3
          | apply downloadAsync_leaves; assumption ].
Qed.

(** X13.  Each platform keeps to its own storage: on the web a resolve never
    touches the file system; on native it never touches the IndexedDB handle,
    the store or the object URLs.  This holds for every environment, state
    and moment of a teardown. *)
Theorem platforms_keep_to_their_storage san os dir props env td held s :
  (os = web ->
   files (world (snd (loadImageAsync san os dir props env td held s)))
   = files (world s))
  /\ (is_web os = false ->
      db (world (snd (loadImageAsync san os dir props env td held s)))
      = db (world s)
      /\ images (world (snd (loadImageAsync san os dir props env td held s)))
         = images (world s)
      /\ objectURLs (world (snd (loadImageAsync san os dir props env td held s)))
         = objectURLs (world s)).
Proof.
  split.
  - intros ->. apply (loadImageAsync_leaves files). unfold platformLoad.
    cbn [is_web]. apply loadImageWeb_leaves_files.
  - intros Hos. repeat split.
    + apply (loadImageAsync_leaves db). unfold platformLoad. rewrite Hos.
      apply loadImageNative_leaves_browser; auto.
    + apply (loadImageAsync_leaves images). unfold platformLoad. rewrite Hos.
      apply loadImageNative_leaves_browser; auto.
    + apply (loadImageAsync_leaves objectURLs). unfold platformLoad. rewrite Hos.
      apply loadImageNative_leaves_browser; auto.
Qed.

Lemma platforms_keep_to_their_storage_witness :
  files (world (snd (loadImageAsync sanitize_strip web "file:///cache/" props1
                       env_ok never (None, None) (sys0 web))))
  = files (world (sys0 web)).
Proof.
  apply (platforms_keep_to_their_storage sanitize_strip web "file:///cache/"
           props1 env_ok never (None, None) (sys0 web)).
  reflexivity.
Defined.

(** ** The preview *)

Lemma loadPreviewImage_leaves_requests san os props env td held :
  leaves requests (loadPreviewImage san os props env td held).
Proof. unfold_loaders. leave_sys. apply getImage_leaves_requests. Qed.

Lemma loadPreviewImage_leaves_files san os props env td held :
  leaves files (loadPreviewImage san os props env td held).
Proof. unfold_loaders. leave_sys. apply getImage_leaves_files. Qed.

(** X14.  The preview is only ever read from the cache: [loadPreviewImage]
    sends no request and touches no file; on native it does nothing at all;
    on the web a hit under [previewCacheKey] replaces [previewUri] by a handle
    to the cached bytes.  It is rejected, with nothing to catch it, when it
    reaches the cache and the database cannot be opened. *)
Theorem loadPreviewImage_reads_cache_only san os props env td held s :
  requests (world (snd (loadPreviewImage san os props env td held s)))
  = requests (world s)
  /\ files (world (snd (loadPreviewImage san os props env td held s)))
     = files (world s)
  /\ (is_web os = false ->
      loadPreviewImage san os props env td held s = (Fulfilled tt, s))
  /\ (forall pk data,
        os = web -> td AwaitPreview = false ->
        truthy_string (Props.preview props) = true ->
        Props.previewCacheKey props = Some pk -> pk <> "" ->
        storage_opens env (world s) -> get_ok env = true ->
        images (world s) !! san pk = Some data ->
        isExpired (now (world s)) data = false ->
        exists h,
          previewUri (comp (snd (loadPreviewImage san os props env td held s)))
          = Some h
          /\ bytes_of (world (snd (loadPreviewImage san os props env td held s))) h
             = Some (blob data))
  /\ (is_web os = true ->
      truthy_string (Props.preview props) = true ->
      truthy_string (Props.previewCacheKey props) = true ->
      db (world s) = false -> open_ok env = false ->
      rejects (loadPreviewImage san os props env td held) s = true).
Proof.
  split; [apply loadPreviewImage_leaves_requests|].
  split; [apply loadPreviewImage_leaves_files|].
  split; [|split].
  - intros Hos. unfold loadPreviewImage. rewrite Hos.
    destruct (negb (truthy_string (Props.preview props))
              || negb (truthy_string (Props.previewCacheKey props)));
      destruct s; reflexivity.
  - intros pk data -> Htd Hp Hk Hne Ho Hg Hl He.
    unfold loadPreviewImage, await, setPreviewUri. rewrite Hp, Hk, Htd.
    assert (Ht : truthy_string (Some pk) = true).
    { cbn [truthy_string]. destruct pk; [congruence | reflexivity]. }
    rewrite Ht. cbn [negb orb is_web from_option andb]. run. unfold id.
    rewrite (getImage_hit san env pk (world s) data Ho Hg Hl He). proj.
    cbn [truthy_string String.eqb String.append negb]. proj.
    eexists. split; [reflexivity|]. unfold bytes_of. proj.
    apply lookup_insert_eq.
  - intros Hos Hp Hk Hd Hop.
    unfold rejects, loadPreviewImage, await. rewrite Hos, Hp, Hk.
    cbn [negb orb]. run.
    rewrite (getImage_no_storage san env _ _ Hd Hop). reflexivity.
Qed.

(** A browser whose store holds a never-expiring entry for ["k1"], with a
    mounted instance that has a preview to look up. *)
Lemma loadPreviewImage_reads_cache_only_witness :
  exists h,
    previewUri
      (comp (snd (loadPreviewImage sanitize_strip web props_lazy_preview env_ok
                    never (None, None) (mkSys world_cached (comp (sys0 web))))))
    = Some h
    /\ bytes_of
         (world (snd (loadPreviewImage sanitize_strip web props_lazy_preview
                        env_ok never (None, None)
                        (mkSys world_cached (comp (sys0 web)))))) h
       = Some png.
Proof.
  apply (proj1 (proj2 (proj2 (proj2
           (loadPreviewImage_reads_cache_only sanitize_strip web
              props_lazy_preview env_ok never (None, None)
              (mkSys world_cached (comp (sys0 web)))))))
           "k1" (mkCachedImage "k1" png 0 None)).
  - reflexivity.
  - reflexivity.
  - reflexivity.
  - reflexivity.
  - discriminate.
  - left; reflexivity.
  - reflexivity.
  - reflexivity.
  - reflexivity.
Defined.

(** ** The effect and the lazy gate *)

Lemma loadPreviewImage_keeps_imgUri san os props env td held :
  keeps imgUri (loadPreviewImage san os props env td held).
Proof. unfold_loaders. keep_hasError. Qed.

Lemma loadPreviewImage_keeps_isLoading san os props env td held :
  keeps isLoading (loadPreviewImage san os props env td held).
Proof. unfold_loaders. keep_hasError. Qed.

Lemma loadPreviewImage_keeps_hasError san os props env td held :
  keeps hasError (loadPreviewImage san os props env td held).
Proof. unfold_loaders. keep_hasError. Qed.

Lemma effect_gated san os dir props env td s :
  Props.lazy props = true ->
  effect san os dir props env td false s =
    (Fulfilled tt,
     snd (when (truthy_string (Props.preview props)
                && negb (truthy_string (previewUri (comp s)))
                && truthy_string (Props.previewCacheKey props))
            (forget (loadPreviewImage san os props env td
                       (imgUri (comp s), previewUri (comp s))))
            (mkSys (world s) (set_mounted true (comp s))))).
Proof.
  intros Hl. unfold effect, startsLoading. rewrite Hl. cbn [negb orb].
  unfold on_comp, modify, bind, when, forget, ret.
  destruct (truthy_string (Props.preview props)
            && negb (truthy_string (previewUri (comp s)))
            && truthy_string (Props.previewCacheKey props)); reflexivity.
Qed.

(** X15.  The lazy gate: while [lazy] is set and the hook reports the image
    as not visible, the effect starts no load: it sends no request, touches
    no file and leaves [imgUri], [isLoading] and [hasError] as they were.
    For a fresh instance it does nothing but set the mounted ref: the preview
    lookup is skipped as well, since [previewUri] starts as the [preview]
    prop itself. *)
Theorem lazy_gate_defers_the_load san os dir props env td s :
  Props.lazy props = true ->
  (requests (world (snd (effect san os dir props env td false s)))
   = requests (world s)
   /\ files (world (snd (effect san os dir props env td false s)))
      = files (world s)
   /\ imgUri (comp (snd (effect san os dir props env td false s)))
      = imgUri (comp s)
   /\ isLoading (comp (snd (effect san os dir props env td false s)))
      = isLoading (comp s)
   /\ hasError (comp (snd (effect san os dir props env td false s)))
      = hasError (comp s))
  /\ (comp s = initialComponent san os dir props ->
      effect san os dir props env td false s
      = (Fulfilled tt, mkSys (world s) (set_mounted true (comp s)))).
Proof.
  intros Hl. rewrite (effect_gated san os dir props env td s Hl). cbn [snd].
  set (s1 := mkSys (world s) (set_mounted true (comp s))).
  set (held := (imgUri (comp s), previewUri (comp s))).
  split.
  - destruct (truthy_string (Props.preview props)
              && negb (truthy_string (previewUri (comp s)))
              && truthy_string (Props.previewCacheKey props));
      unfold when, forget, ret; cbn [snd]; [|repeat split].
    split; [apply (loadPreviewImage_leaves_requests san os props env td held s1)|].
    split; [apply (loadPreviewImage_leaves_files san os props env td held s1)|].
    split; [apply (loadPreviewImage_keeps_imgUri san os props env td held s1)|].
    split; [apply (loadPreviewImage_keeps_isLoading san os props env td held s1)|].
    apply (loadPreviewImage_keeps_hasError san os props env td held s1).
  - intros Hc.
    assert (Hp : truthy_string (Props.preview props)
                 && negb (truthy_string (previewUri (comp s))) = false).
    { rewrite Hc. unfold initialComponent. cbn [previewUri].
      destruct (truthy_string (Props.preview props)) eqn:Hp; [|reflexivity].
      rewrite Hp. reflexivity. }
    rewrite Hp. reflexivity.
Qed.

Lemma lazy_gate_defers_the_load_witness :
  effect sanitize_strip web "file:///cache/" props_lazy_preview env_ok never false
    (mkSys world_cached
       (initialComponent sanitize_strip web "file:///cache/" props_lazy_preview))
  = (Fulfilled tt,
     mkSys world_cached
       (set_mounted true
          (initialComponent sanitize_strip web "file:///cache/"
             props_lazy_preview))).
Proof.
  apply (proj2 (lazy_gate_defers_the_load sanitize_strip web "file:///cache/"
                  props_lazy_preview env_ok never
                  (mkSys world_cached
                     (initialComponent sanitize_strip web "file:///cache/"
                        props_lazy_preview))
                  eq_refl)).
  reflexivity.
Defined.

(** ** Teardown during the first suspension *)

(** X16.  The mounted check does stop the load: when the instance is torn
    down while the cache lookup is pending, the web loader sends no request
    and sets no handle, whatever the lookup returns; the native loader sends
    no request and sets no handle either, but it still deletes a file that
    it finds expired, which is then not downloaded again. *)
Theorem teardown_during_lookup_stops_the_load san os dir props env td held s :
  tornDown (comp s) = false ->
  (td AwaitGetImage = true ->
   requests (world (snd (loadImageWeb san os props env td held s)))
   = requests (world s)
   /\ imgUri (comp (snd (loadImageWeb san os props env td held s)))
      = imgUri (comp s))
  /\ (td AwaitGetInfo = true -> is_web os = false ->
      requests (world (snd (loadImageNative san os dir props env td held s)))
      = requests (world s)
      /\ imgUri (comp (snd (loadImageNative san os dir props env td held s)))
         = imgUri (comp s)
      /\ files (world (snd (loadImageNative san os dir props env td held s)))
         = (if isImageExpired props (now (world s))
                 (fileInfo (world s) (fileURI san os dir props))
            then delete (fileURI san os dir props) (files (world s))
            else files (world s))).
Proof.
  intros Ht. split.
  - intros Htd. unfold loadImageWeb, await, in_world, isMounted. run.
    pose proof (getImage_leaves_requests san env (Props.cacheKey props) (world s))
      as Hr.
    destruct (getImage san env (Props.cacheKey props) (world s)) as [[r | e] w1];
      cbn [snd] in Hr; proj; rewrite Htd, Ht; cbn [negb andb].
    + unfold cleanup. proj. cbn [componentIsMounted set_tornDown set_mounted].
      rewrite andb_false_r. proj.
      cbn [componentIsMounted set_tornDown set_mounted]. proj.
      split; [|reflexivity].
      destruct (is_web os); [|exact Hr].
      destruct (startsWith "blob:" (fst held)), (startsWith "blob:" (snd held));
        exact Hr.
    + unfold cleanup. proj. split; [|reflexivity].
      destruct (is_web os); [|exact Hr].
      destruct (startsWith "blob:" (fst held)), (startsWith "blob:" (snd held));
        exact Hr.
  - intros Htd Hos. unfold loadImageNative, handleExpiredImage, downloadImage,
      await, in_world, isMounted, getInfoAsync, deleteAsync, animateImageLoad.
    run. rewrite Htd, Ht. cbn [negb andb]. unfold cleanup. rewrite Hos. proj.
    cbn [componentIsMounted set_tornDown set_mounted tornDown].
    destruct (shouldDownloadImage props (now (world s))
                (fileInfo (world s) (fileURI san os dir props))) eqn:Hsd;
      cbn [negb]; proj.
    + destruct (isImageExpired props (now (world s))
                  (fileInfo (world s) (fileURI san os dir props))); proj.
      * rewrite andb_false_r. proj.
        cbn [componentIsMounted set_tornDown set_mounted negb]. repeat split.
      * cbn [componentIsMounted set_tornDown set_mounted negb]. repeat split.
    + cbn [componentIsMounted set_tornDown set_mounted]. proj.
      assert (He : isImageExpired props (now (world s))
                     (fileInfo (world s) (fileURI san os dir props)) = false).
      { unfold shouldDownloadImage in Hsd. apply orb_false_iff in Hsd as [_ H].
        exact H. }
      rewrite He. repeat split.
Qed.

Lemma teardown_during_lookup_stops_the_load_witness :
  requests (world (snd (loadImageWeb sanitize_strip web props1 env_ok
                          (during AwaitGetImage) (None, None) (sys0 web))))
  = requests (world (sys0 web))
  /\ imgUri (comp (snd (loadImageWeb sanitize_strip web props1 env_ok
                          (during AwaitGetImage) (None, None) (sys0 web))))
     = imgUri (comp (sys0 web)).
Proof.
  apply (proj1 (teardown_during_lookup_stops_the_load sanitize_strip web
                  "file:///cache/" props1 env_ok (during AwaitGetImage)
                  (None, None) (sys0 web) eq_refl)).
  reflexivity.
Defined.

(** ** The native loader, over two resolves *)

Lemma loadImageNative_200 san os dir props env held s body :
  is_web os = false -> componentIsMounted (comp s) = true ->
  shouldDownloadImage props (now (world s))
    (fileInfo (world s) (fileURI san os dir props)) = true ->
  download_outcome env (Props.uri props) = DownloadResult 200 body ->
  exists w',
    loadImageNative san os dir props env never held s =
      (Fulfilled tt,
       mkSys w'
         (animate
            (update
               (SetImgUri
                  (Some (fileURI san os dir props +:+ "?"
                         +:+ pretty (now (world s) + transfer_ms env))))
               (comp s))))
    /\ now w' = now (world s) + transfer_ms env
    /\ requests w' = Props.uri props :: requests (world s)
    /\ files w' !! fileURI san os dir props
       = Some (mkFile body (number_of_Z (now (world s) + transfer_ms env) / 1000)%float).
Proof.
  intros Hos Hm Hd Hdl. run_native. rewrite Hd. proj.
  destruct (isImageExpired props (now (world s))
              (fileInfo (world s) (fileURI san os dir props)));
    run_native; rewrite Hm; proj; rewrite Hdl; proj; rewrite Hm; proj;
    cbn [Z.eqb Pos.eqb]; run_native;
    (eexists; split; [reflexivity|]); proj;
    repeat split; apply lookup_insert_eq.
Qed.

Lemma loadImageAsync_native_fulfilled san os dir props env held s w' c' :
  is_web os = false ->
  loadImageNative san os dir props env never held (loading s)
    = (Fulfilled tt, mkSys w' c') ->
  loadImageAsync san os dir props env never held s =
    (Fulfilled tt, mkSys w' (update (SetIsLoading false) c')).
Proof.
  intros Hos H. rewrite loadImageAsync_run. unfold platformLoad. rewrite Hos, H.
  reflexivity.
Qed.

Lemma loadImageNative_cached san os dir props env held s :
  componentIsMounted (comp s) = true ->
  shouldDownloadImage props (now (world s))
    (fileInfo (world s) (fileURI san os dir props)) = false ->
  loadImageNative san os dir props env never held s
  = (Fulfilled tt, mkSys (world s) (animate (comp s))).
Proof.
  intros Hm Hsd. run_native. rewrite Hsd. proj. run_native. rewrite Hm.
  reflexivity.
Qed.

(** X17.  On native a download that answers 200 is kept and served: the file
    holds the body, the handle is the file path followed by [?] and the time
    of the write, and a second resolve within [expiresIn] seconds of the
    file's modification time (the age computed as the code does) sends no
    request and keeps that handle, provided the body is not empty. *)
Theorem native_download_then_hit san os dir props env env' held held' s body dt :
  is_web os = false -> componentIsMounted (comp s) = true ->
  shouldDownloadImage props (now (world s))
    (fileInfo (world s) (fileURI san os dir props)) = true ->
  download_outcome env (Props.uri props) = DownloadResult 200 body ->
  body <> [] ->
  (Props.expiresIn props = None
   \/ exists q, Props.expiresIn props = Some q
                /\ gtb (file_age (now (world s) + transfer_ms env)
                                 (now (world s) + transfer_ms env + dt)) q
                   = false) ->
  exists s1 s2,
    loadImageAsync san os dir props env never held s = (Fulfilled tt, s1)
    /\ loadImageAsync san os dir props env' never held' (later dt s1)
       = (Fulfilled tt, s2)
    /\ files (world s1) !! fileURI san os dir props
       = Some (mkFile body (number_of_Z (now (world s) + transfer_ms env) / 1000)%float)
    /\ imgUri (comp s1)
       = Some (fileURI san os dir props +:+ "?"
               +:+ pretty (now (world s) + transfer_ms env))
    /\ requests (world s1) = Props.uri props :: requests (world s)
    /\ requests (world s2) = requests (world s1)
    /\ files (world s2) = files (world s1)
    /\ imgUri (comp s2) = imgUri (comp s1).
Proof.
  intros Hos Hm Hsd Hdl Hb He.
  destruct (loadImageNative_200 san os dir props env held (loading s) body
              Hos Hm Hsd Hdl) as (w' & Hrun & Hnow & Hreq & Hfile).
  pose proof (loadImageAsync_native_fulfilled san os dir props env held s _ _
                Hos Hrun) as H1.
  match type of H1 with _ = (_, ?x) => set (s1 := x) in * end.
  assert (Hsd2 : shouldDownloadImage props (now (world (loading (later dt s1))))
                   (fileInfo (world (loading (later dt s1)))
                      (fileURI san os dir props)) = false).
  { unfold loading, later, s1. proj. unfold fileInfo. proj. rewrite Hfile.
    unfold shouldDownloadImage, isImageExpired. cbn [fi_exists fi_size_is_zero
      negb orb content mtime].
    assert (Hz : (Z.of_nat (length body) =? 0) = false).
    { apply Z.eqb_neq. destruct body; [congruence | cbn [length]; lia]. }
    rewrite Hz. cbn [orb]. rewrite Hnow.
    destruct He as [-> | (q & -> & Hq)]; [reflexivity|].
    unfold file_age in Hq. unfold loading. proj. rewrite Hq.
    apply andb_false_r. }
  pose proof (loadImageNative_cached san os dir props env' held'
                (loading (later dt s1)) Hm Hsd2) as Hrun2.
  pose proof (loadImageAsync_native_fulfilled san os dir props env' held'
                (later dt s1) _ _ Hos Hrun2) as H2.
  do 2 eexists. split; [exact H1|]. split; [exact H2|].
  unfold s1. proj. repeat split; assumption.
Qed.

Lemma native_download_then_hit_witness :
  exists s1 s2,
    loadImageAsync sanitize_strip ios "file:///cache/" props1 env_ok never
      (None, None) (sys0 ios) = (Fulfilled tt, s1)
    /\ loadImageAsync sanitize_strip ios "file:///cache/" props1 env_ok never
         (None, None) (later 59000 s1) = (Fulfilled tt, s2)
    /\ files (world s1) !! fileURI sanitize_strip ios "file:///cache/" props1
       = Some (mkFile png
                 (number_of_Z (now (world (sys0 ios)) + transfer_ms env_ok) / 1000)%float)
    /\ imgUri (comp s1)
       = Some (fileURI sanitize_strip ios "file:///cache/" props1 +:+ "?"
               +:+ pretty (now (world (sys0 ios)) + transfer_ms env_ok))
    /\ requests (world s1) = Props.uri props1 :: requests (world (sys0 ios))
    /\ requests (world s2) = requests (world s1)
    /\ files (world s2) = files (world s1)
    /\ imgUri (comp s2) = imgUri (comp s1).
Proof.
  apply (native_download_then_hit sanitize_strip ios "file:///cache/" props1
           env_ok env_ok (None, None) (None, None) (sys0 ios) png 59000).
  - reflexivity.
  - reflexivity.
  - reflexivity.
  - reflexivity.
  - discriminate.
  - right. exists 60%float. split; reflexivity.
Defined.

(** X18.  On native a 200 answer with an empty body is written but never
    served: the file it leaves is empty, so the next resolve of a mounted
    instance, however soon, sends the request again. *)
Theorem native_empty_body_is_downloaded_again
    san os dir props env env' held held' s dt :
  is_web os = false -> componentIsMounted (comp s) = true ->
  shouldDownloadImage props (now (world s))
    (fileInfo (world s) (fileURI san os dir props)) = true ->
  download_outcome env (Props.uri props) = DownloadResult 200 [] ->
  exists s1,
    loadImageAsync san os dir props env never held s = (Fulfilled tt, s1)
    /\ fileInfo (world s1) (fileURI san os dir props)
       = FileStat 0 (number_of_Z (now (world s) + transfer_ms env) / 1000)%float
    /\ requests (world (snd (loadImageAsync san os dir props env' never held'
                               (later dt s1))))
       = Props.uri props :: Props.uri props :: requests (world s).
Proof.
  intros Hos Hm Hsd Hdl.
  destruct (loadImageNative_200 san os dir props env held (loading s) []
              Hos Hm Hsd Hdl) as (w' & Hrun & Hnow & Hreq & Hfile).
  pose proof (loadImageAsync_native_fulfilled san os dir props env held s _ _
                Hos Hrun) as H1.
  match type of H1 with _ = (_, ?x) => set (s1 := x) in * end.
  exists s1. split; [exact H1|].
  assert (Hinfo : fileInfo (world s1) (fileURI san os dir props)
                  = FileStat 0 (number_of_Z (now (world s) + transfer_ms env) / 1000)%float).
  { unfold s1, fileInfo. proj. rewrite Hfile. reflexivity. }
  split; [exact Hinfo|].
  assert (Hsd2 : shouldDownloadImage props (now (world (loading (later dt s1))))
                   (fileInfo (world (loading (later dt s1)))
                      (fileURI san os dir props)) = true).
  { unfold loading, later. proj.
    change (fileInfo (set_now (now (world s1) + dt) (world s1))
              (fileURI san os dir props))
      with (fileInfo (world s1) (fileURI san os dir props)).
    rewrite Hinfo. reflexivity. }
  destruct (loadImageNative_refetch san os dir props env' held'
              (loading (later dt s1)) Hos Hm Hsd2) as (Hr & _).
  rewrite loadImageAsync_run. unfold platformLoad. rewrite Hos.
  destruct (loadImageNative san os dir props env' never held'
              (loading (later dt s1))) as [[a | e] s2]; cbn [snd world] in *;
    rewrite Hr; unfold loading, later, s1; proj; rewrite Hreq; reflexivity.
Qed.

Lemma native_empty_body_is_downloaded_again_witness :
  exists s1,
    loadImageAsync sanitize_strip ios "file:///cache/" props1 env_empty_body
      never (None, None) (sys0 ios) = (Fulfilled tt, s1)
    /\ fileInfo (world s1) (fileURI sanitize_strip ios "file:///cache/" props1)
       = FileStat 0
           (number_of_Z (now (world (sys0 ios)) + transfer_ms env_empty_body) / 1000)%float
    /\ requests
         (world (snd (loadImageAsync sanitize_strip ios "file:///cache/" props1
                        env_empty_body never (None, None) (later 10 s1))))
       = Props.uri props1 :: Props.uri props1 :: requests (world (sys0 ios)).
Proof.
  apply (native_empty_body_is_downloaded_again sanitize_strip ios
           "file:///cache/" props1 env_empty_body env_empty_body
           (None, None) (None, None) (sys0 ios) 10).
  - reflexivity.
  - reflexivity.
  - reflexivity.
  - reflexivity.
Defined.

(** ** Cache files *)

Lemma length_append (a b : string) :
  String.length (a +:+ b) = (String.length a + String.length b)%nat.
Proof.
  induction a as [|x a IH]; [reflexivity|].
  simpl. f_equal. exact IH.
Qed.

Lemma append_inj_r (a b c : string) : a +:+ c = b +:+ c -> a = b.
Proof.
  revert b. induction a as [|x a IH]; intros [|y b] H.
  - reflexivity.
  - apply (f_equal String.length) in H.
    rewrite !length_append in H. simpl in H. lia.
  - apply (f_equal String.length) in H.
    rewrite !length_append in H. simpl in H. lia.
  - simpl in H. injection H as -> H. f_equal. apply IH, H.
Qed.

(** X19.  On native two keys use the same cache file exactly when their
    sanitized forms are equal, so distinct sanitized keys never overwrite
    each other's files; on the web no file path is used at all. *)
Theorem fileURI_shared_iff_sanitized_equal san os dir props props' :
  (is_web os = false ->
   (fileURI san os dir props = fileURI san os dir props'
    <-> san (Props.cacheKey props) = san (Props.cacheKey props')))
  /\ (is_web os = true -> fileURI san os dir props = "").
Proof.
  unfold fileURI, IMAGE_CACHE_FOLDER. split.
  - intros ->. split.
    + intros H. apply (inj (String.app dir)) in H. apply append_inj_r in H.
      exact H.
    + intros ->. reflexivity.
  - intros ->. reflexivity.
Qed.

Lemma fileURI_shared_iff_sanitized_equal_witness :
  fileURI sanitize_strip ios "file:///cache/" props1
  = fileURI sanitize_strip ios "file:///cache/" props_lazy_preview
  <-> sanitize_strip (Props.cacheKey props1)
      = sanitize_strip (Props.cacheKey props_lazy_preview).
Proof.
  apply (proj1 (fileURI_shared_iff_sanitized_equal sanitize_strip ios
                  "file:///cache/" props1 props_lazy_preview)).
  reflexivity.
Defined.

(** ** Unmounting *)

Lemma revoke_if_lookup (x : option string) (w : World) (u : string) :
  objectURLs (if startsWith "blob:" x
              then revokeObjectURL (default "" x) w else w) !! u
  = if startsWith "blob:" x && bool_decide (x = Some u)
    then None else objectURLs w !! u.
Proof.
  destruct x as [a|]; cbn [startsWith]; [|reflexivity].
  destruct (String.prefix "blob:" a); cbn [andb]; [|reflexivity].
  unfold revokeObjectURL. proj. cbn [from_option]. unfold id.
  case_bool_decide as H.
  - injection H as ->. apply lookup_delete_eq.
  - apply lookup_delete_ne. congruence.
Qed.

Lemma revoke_if_other {B} (g : World -> B) (x : option string) (w : World) :
  (forall u w, g (revokeObjectURL u w) = g w) ->
  g (if startsWith "blob:" x then revokeObjectURL (default "" x) w else w) = g w.
Proof. intros H. destruct (startsWith "blob:" x); [apply H | reflexivity]. Qed.

(** X20.  Unmounting releases the handles of the effect's render and nothing
    else: on the web exactly the [imgUri] and [previewUri] held by the cleanup
    that start with ["blob:"] are revoked, every other object URL stays live
    (a remote URI used as fallback is not touched); on native the world is
    left as it is.  The store, the files and the request log are never
    touched, the mounted ref is cleared, and unmounting twice is unmounting
    once. *)
Theorem unmount_revokes_held_blob_urls_only os s0 s :
  tornDown (comp s) = false ->
  componentIsMounted (comp (unmount os s0 s)) = false
  /\ images (world (unmount os s0 s)) = images (world s)
  /\ files (world (unmount os s0 s)) = files (world s)
  /\ requests (world (unmount os s0 s)) = requests (world s)
  /\ (is_web os = false -> world (unmount os s0 s) = world s)
  /\ (is_web os = true ->
      forall u,
        objectURLs (world (unmount os s0 s)) !! u
        = if startsWith "blob:" (Some u)
             && (bool_decide (imgUri (comp s0) = Some u)
                 || bool_decide (previewUri (comp s0) = Some u))
          then None
          else objectURLs (world s) !! u)
  /\ unmount os s0 (unmount os s0 s) = unmount os s0 s.
Proof.
  intros Ht. unfold unmount at 1 2 3 4 5 6. rewrite Ht. unfold cleanup.
  cbn [world comp fst snd].
  split; [reflexivity|].
  split; [destruct (is_web os); [|reflexivity]; rewrite !revoke_if_other; auto|].
  split; [destruct (is_web os); [|reflexivity]; rewrite !revoke_if_other; auto|].
  split; [destruct (is_web os); [|reflexivity]; rewrite !revoke_if_other; auto|].
  split; [intros ->; reflexivity|].
  split.
  - intros -> u. rewrite !revoke_if_lookup.
    destruct (imgUri (comp s0)) as [a|], (previewUri (comp s0)) as [b|];
      cbn [startsWith];
      repeat case_bool_decide; simplify_eq;
      cbn [andb orb];
      rewrite ?andb_false_r, ?andb_true_r;
      try reflexivity;
      destruct (String.prefix "blob:" u); reflexivity.
  - unfold unmount. rewrite Ht. unfold cleanup. reflexivity.
Qed.

Lemma unmount_revokes_held_blob_urls_only_witness :
  objectURLs
    (world (unmount web
              (snd (loadImageAsync sanitize_strip web "file:///cache/" props1
                      env_ok never (None, None) (sys0 web)))
              (snd (loadImageAsync sanitize_strip web "file:///cache/" props1
                      env_ok never (None, None) (sys0 web))))) !! "blob:0"
  = if startsWith "blob:" (Some "blob:0")
       && (bool_decide
             (imgUri (comp (snd (loadImageAsync sanitize_strip web
                                   "file:///cache/" props1 env_ok never
                                   (None, None) (sys0 web)))) = Some "blob:0")
           || bool_decide
                (previewUri (comp (snd (loadImageAsync sanitize_strip web
                                          "file:///cache/" props1 env_ok never
                                          (None, None) (sys0 web))))
                 = Some "blob:0"))
    then None
    else objectURLs
           (world (snd (loadImageAsync sanitize_strip web "file:///cache/"
                          props1 env_ok never (None, None) (sys0 web))))
         !! "blob:0".
Proof.
  apply (unmount_revokes_held_blob_urls_only web
           (snd (loadImageAsync sanitize_strip web "file:///cache/" props1
                   env_ok never (None, None) (sys0 web)))
           (snd (loadImageAsync sanitize_strip web "file:///cache/" props1
                   env_ok never (None, None) (sys0 web)))).
  - reflexivity.
  - reflexivity.
Defined.

(** ** The observer's reports *)

Lemma observerCallback_observing v o :
  observing o = true -> observerCallback v o = mkObserver v true.
Proof. intros H. unfold observerCallback. rewrite H. reflexivity. Qed.

Lemma observerCallback_not_observing v o :
  observing o = false -> observerCallback v o = o.
Proof. intros H. unfold observerCallback. rewrite H. reflexivity. Qed.

Lemma last_cons_default {A} (v : A) (l : list A) (d : A) :
  List.last (v :: l) d = List.last l v.
Proof.
  revert v d. induction l as [|b l IH]; intros v d; [reflexivity|].
  change (List.last (v :: b :: l) d) with (List.last (b :: l) d).
  rewrite (IH b d), (IH b v). reflexivity.
Qed.

Lemma reports_ignored (reports : list bool) (o : Observer) :
  observing o = false ->
  fold_left (fun o v => observerCallback v o) reports o = o.
Proof.
  revert o. induction reports as [|v l IH]; intros o Ho; [reflexivity|].
  cbn [fold_left]. rewrite (observerCallback_not_observing v o Ho).
  apply IH, Ho.
Qed.

Lemma reports_followed (reports : list bool) (i : bool) :
  isIntersecting
    (fold_left (fun o v => observerCallback v o) reports (mkObserver i true))
  = List.last reports i.
Proof.
  revert i. induction reports as [|v l IH]; intros i; [reflexivity|].
  cbn [fold_left]. rewrite observerCallback_observing by reflexivity.
  rewrite IH, last_cons_default. reflexivity.
Qed.

(** X21.  On the web, with observation enabled: once the effect has created
    the observer, [isIntersecting] is always the latest report of the
    browser, and is what it was while there has been none; after the effect's
    cleanup, and when the target was not attached when the effect ran, no
    report changes anything, so a lazy image whose target was missing stays
    deferred. *)
Theorem isIntersecting_is_the_latest_report (reports : list bool) (o : Observer) :
  isIntersecting
    (fold_left (fun o v => observerCallback v o) reports
       (observerEffect true web true o))
  = List.last reports (isIntersecting o)
  /\ fold_left (fun o v => observerCallback v o) reports
       (observerCleanup (observerEffect true web true o))
     = observerCleanup (observerEffect true web true o)
  /\ fold_left (fun o v => observerCallback v o) reports
       (observerEffect true web false initialObserver)
     = initialObserver
  /\ startsLoading true
       (isIntersecting
          (fold_left (fun o v => observerCallback v o) reports
             (observerEffect true web false initialObserver)))
     = false.
Proof.
  split; [|split; [|split]].
  - apply (reports_followed reports (isIntersecting o)).
  - apply reports_ignored. reflexivity.
  - apply reports_ignored. reflexivity.
  - rewrite reports_ignored by reflexivity. reflexivity.
Qed.

(** ** What is rendered *)

Section Preserves.

Variable P : Component -> Prop.

Lemma preserves_ret {A} (a : A) : preserves P (ret a).
Proof. intros s H. exact H. Qed.

Lemma preserves_gets {A} (f : Sys -> A) : preserves P (gets f).
Proof. intros s H. exact H. Qed.

Lemma preserves_bind {A C} (m : Async Sys A) (k : A -> Async Sys C) :
  preserves P m -> (forall a, preserves P (k a)) -> preserves P (bind m k).
Proof.
  intros Hm Hk s H. unfold bind. specialize (Hm s H).
  destruct (m s) as [[a | e] s1]; cbn [snd] in *; [|exact Hm].
  apply Hk, Hm.
Qed.

Lemma preserves_when (c : bool) (m : Async Sys unit) :
  preserves P m -> preserves P (when c m).
Proof. intros H. destruct c; [exact H | apply preserves_ret]. Qed.

Lemma preserves_in_world {A} (m : Async World A) : preserves P (in_world m).
Proof. intros s H. unfold in_world. destruct (m (world s)). exact H. Qed.

Lemma preserves_on_comp (h : Component -> Component) :
  (forall c, P c -> P (h c)) -> preserves P (on_comp h).
Proof. intros Hh s H. apply Hh, H. Qed.

Lemma preserves_await {A} os td held p (m : Async Sys A) :
  (forall c, P c -> P (set_tornDown (set_mounted false c))) ->
  preserves P m -> preserves P (await os td held p m).
Proof.
  intros Hc Hm s H. unfold await. specialize (Hm s H).
  destruct (m s) as [r s1]; cbn [snd] in *.
  destruct (td p && negb (tornDown (comp s1))); [|exact Hm].
  unfold cleanup. cbn [comp]. apply Hc, Hm.
Qed.

End Preserves.

(** The component has something to show: [imgUri] is a non-empty string. *)
Lemma truthy_nonempty (u : string) : u <> "" -> truthy_string (Some u) = true.
Proof. intros H. destruct u; [congruence | reflexivity]. Qed.

Lemma truthy_cache_buster (a b : string) :
  truthy_string (Some (a +:+ "?" +:+ b)) = true.
Proof. destruct a; reflexivity. Qed.

Ltac preserve_handle :=
  repeat
    match goal with
    | |- preserves _ (ret _) => apply preserves_ret
    | |- preserves _ (gets _) => apply preserves_gets
    | |- preserves _ (in_world _) => apply preserves_in_world
    | |- preserves _ (when _ _) => apply preserves_when
    | |- preserves _ (bind _ _) => apply preserves_bind
    | |- preserves _ (await _ _ _ _ _) =>
        apply preserves_await; [intros ? H; exact H|]
    | |- preserves _ (on_comp animate) =>
        apply preserves_on_comp; intros ? H; exact H
    | |- preserves _ (if ?b then _ else _) => destruct b eqn:?
    | |- forall _, preserves _ _ => intros ?
    end.

Lemma platformLoad_preserves_handle san os dir props env td held :
  Props.uri props <> "" ->
  preserves (fun c => truthy_string (imgUri c) = true)
    (platformLoad san os dir props env td held).
Proof.
  intros Hu. unfold_loaders. preserve_handle;
    apply preserves_on_comp; intros c _; cbn [update imgUri].
  - match goal with H : _ && _ = true |- _ => apply andb_prop in H as [H _]; exact H end.
  - assumption.
  - apply truthy_nonempty, Hu.
  - apply truthy_cache_buster.
  - apply truthy_nonempty, Hu.
  - apply truthy_cache_buster.
  - apply truthy_nonempty, Hu.
Qed.

(** X22.  A handle is never replaced by nothing: if [imgUri] is a non-empty
    string before [loadImageAsync], it is one afterwards, on every platform,
    in every environment and for every moment of a teardown (the image URI
    being itself non-empty). *)
Theorem handle_never_becomes_empty san os dir props env td held s :
  Props.uri props <> "" ->
  truthy_string (imgUri (comp s)) = true ->
  truthy_string
    (imgUri (comp (snd (loadImageAsync san os dir props env td held s)))) = true.
Proof.
  intros Hu H. rewrite loadImageAsync_run.
  pose proof (platformLoad_preserves_handle san os dir props env td held Hu
                (loading s) H) as H2.
  destruct (platformLoad san os dir props env td held (loading s))
    as [[a | e] s2]; cbn [snd comp] in *.
  - exact H2.
  - destruct (componentIsMounted (comp s2)); [|exact H2].
    apply truthy_nonempty, Hu.
Qed.

Lemma handle_never_becomes_empty_witness :
  truthy_string
    (imgUri (comp (snd (loadImageAsync sanitize_strip ios "file:///cache/" props1
                          env_offline never (None, None) (sys0 ios))))) = true.
Proof.
  apply (handle_never_becomes_empty sanitize_strip ios "file:///cache/" props1
           env_offline never (None, None) (sys0 ios)).
  - discriminate.
  - reflexivity.
Defined.

Lemma getImage_result san env k w :
  (exists e, fst (getImage san env k w) = Rejected e)
  \/ fst (getImage san env k w) = Fulfilled None
  \/ exists n, fst (getImage san env k w)
               = Fulfilled (Some ("blob:" +:+ pretty (n : nat))).
Proof.
  destruct (storage_opens_dec env w) as [Ho | [Hd Hop]].
  - destruct (get_ok env) eqn:Hg.
    + destruct (images w !! san k) as [data|] eqn:Hl.
      * destruct (isExpired (now w) data) eqn:He.
        -- rewrite (getImage_expired san env k w data Ho Hg Hl He). auto.
        -- rewrite (getImage_hit san env k w data Ho Hg Hl He). eauto.
      * rewrite (getImage_absent san env k w Ho Hl). auto.
    + right; left. unfold getImage. run. rewrite (init_opens _ _ Ho). proj.
      rewrite Hg. reflexivity.
  - rewrite (getImage_no_storage san env k w Hd Hop). eauto.
Qed.

(** X23.  On the web a resolve that runs to its end on a mounted instance
    always leaves something to show: whatever the cache and the network do,
    [imgUri] ends as a non-empty string (a handle, or the image URI itself,
    taken non-empty), so that [renderContent], unless the lazy gate is shut,
    renders the image and not the loading view. *)
Theorem web_resolve_ends_with_a_handle san dir props env held s i :
  Props.uri props <> "" -> componentIsMounted (comp s) = true ->
  truthy_string
    (imgUri (comp (snd (loadImageAsync san web dir props env never held s))))
  = true
  /\ (Props.lazy props = false \/ i = true ->
      renderContent props i
        (comp (snd (loadImageAsync san web dir props env never held s)))
      = RenderImage
          (shownPreview
             (comp (snd (loadImageAsync san web dir props env never held s))))
          (imgUri
             (comp (snd (loadImageAsync san web dir props env never held s))))).
Proof.
  intros Hu Hm.
  assert (Hmain : truthy_string
            (imgUri (comp (snd (loadImageAsync san web dir props env never held s))))
            = true).
  { destruct (getImage san env (Props.cacheKey props) (world s))
      as [[r | e] w1] eqn:Hg.
    - destruct (truthy_string r) eqn:Ht.
      + destruct r as [h|]; [|discriminate].
        rewrite (loadImageAsync_web_fulfilled san dir props env held s _ _
                   (loadImageWeb_cached san web props env held (loading s) h w1
                      Hg Ht Hm)).
        exact Ht.
      + assert (Hr : r = None).
        { destruct (getImage_result san env (Props.cacheKey props) (world s))
            as [[e He] | [He | [n He]]]; rewrite Hg in He; cbn [fst] in He.
          - discriminate.
          - congruence.
          - injection He as ->. discriminate. }
        subst r.
        destruct (downloadAndCache_fulfils san env (Props.uri props)
                    (Props.cacheKey props) (Props.expiresIn props) w1)
          as (r' & w2 & Hdl).
        rewrite (loadImageAsync_web_fulfilled san dir props env held s _ _
                   (loadImageWeb_downloads san web props env held (loading s)
                      w1 r' w2 Hg Hdl Hm)).
        cbn [snd comp update imgUri].
        destruct (truthy_string r') eqn:Ht'; [exact Ht'|].
        apply truthy_nonempty, Hu.
    - rewrite loadImageAsync_run. unfold platformLoad. cbn [is_web].
      assert (Hw : loadImageWeb san web props env never held (loading s)
                   = (Rejected e, mkSys w1 (comp (loading s)))).
      { run_web. change (world (loading s)) with (world s). rewrite Hg.
        reflexivity. }
      rewrite Hw. cbn [snd comp].
      change (componentIsMounted (comp (loading s)))
        with (componentIsMounted (comp s)).
      rewrite Hm. apply truthy_nonempty, Hu. }
  split; [exact Hmain|].
  intros Hgate. unfold renderContent. rewrite Hmain. cbn [negb andb].
  destruct Hgate as [-> | ->]; [reflexivity|].
  rewrite andb_false_r. reflexivity.
Qed.

Lemma web_resolve_ends_with_a_handle_witness :
  truthy_string
    (imgUri (comp (snd (loadImageAsync sanitize_strip web "file:///cache/" props1
                          env_no_storage never (None, None) (sys0 web)))))
  = true.
Proof.
  apply (web_resolve_ends_with_a_handle sanitize_strip "file:///cache/" props1
           env_no_storage (None, None) (sys0 web) true).
  - discriminate.
  - reflexivity.
Defined.

(** X24.  The first render, before any load has finished: behind a shut lazy
    gate the placeholder; otherwise on the web the loading view, and on
    native the image itself, with the cache file's path as its source
    whether or not that file exists yet. *)
Theorem first_render san os dir props i :
  renderContent props i (initialComponent san os dir props)
  = if Props.lazy props && negb i then RenderPlaceholder
    else if is_web os
         then RenderLoading (shownPreview (initialComponent san os dir props))
         else RenderImage (shownPreview (initialComponent san os dir props))
                (Some (dir +:+ san (Props.cacheKey props) +:+ ".png")).
Proof.
  unfold renderContent. destruct (Props.lazy props && negb i); [reflexivity|].
  assert (Hi : imgUri (initialComponent san os dir props)
               = if is_web os then None
                 else Some (dir +:+ san (Props.cacheKey props) +:+ ".png")).
  { unfold initialComponent, fileURI, IMAGE_CACHE_FOLDER. cbn [imgUri].
    destruct (is_web os); reflexivity. }
  rewrite !Hi.
  change (hasError (initialComponent san os dir props)) with false.
  destruct (is_web os); [reflexivity|].
  assert (Ht : truthy_string
                 (Some (dir +:+ san (Props.cacheKey props) +:+ ".png")) = true).
  { apply truthy_nonempty. intros H. apply (f_equal String.length) in H.
    rewrite !length_append in H. simpl in H. lia. }
  rewrite Ht. reflexivity.
Qed.
